(** * file-box: the resumable HTTP download engine of [src/misc.ts]

    A shallow embedding of the header probe ([httpHeadHeader]), the overlap
    filter ([createSkipTransform]), the Content-Range parser
    ([parseContentRange]) and the segmented fetch loop
    ([downloadFileInChunks], entered through [httpStream]), followed by the
    properties of the specification that concern them.

    Conventions of the embedding.
    - JavaScript numbers that hold byte counts and offsets are integers of
      [Z]; the embedding is exact below 2^53, where doubles are exact.
    - A [Buffer] is a [list byte]; a stream is the list of the chunks it
      delivers.
    - Everything the network and the file system decide (the response to a
      request, whether a body ends or breaks, whether the write stream
      finishes) is an input of the functions: a script of exchanges.
    - The process-wide [Set] of hosts is a [gset string].
    - The scratch file holds what has been written to its stream; the
      properties of a pass are stated for the size the pass measures. *)

From Stdlib Require Import ZArith List Lia Bool Strings.Byte Strings.Ascii Decimal DecimalNat.
From stdpp Require Import gmap strings list.
Import ListNotations.
Local Open Scope Z_scope.

(* ===================================================================== *)
(** * Part I: definitions                                                 *)
(* ===================================================================== *)

(** A [Buffer]: what a stream hands over in one piece. *)
Definition chunk : Type := list byte.

(** ** createSkipTransform (src/misc.ts, lines 208-230) *)

Module Skip.

(** [chunk.length] *)
Definition len (c : chunk) : Z := Z.of_nat (length c).

(** [chunk.subarray(i)]: a negative index counts from the end, an index
    past the end gives the empty buffer. *)
Definition subarray (c : chunk) (i : Z) : chunk :=
  if i <? 0 then drop (Z.to_nat (Z.max 0 (len c + i))) c
  else drop (Z.to_nat i) c.

(** One call of the [transform (chunk, _encoding, callback)] method.
    The closure variable [skipped] is threaded; the second component is
    what [callback] pushes downstream ([None] for the bare
    [callback ()]). *)
Definition transform (skipBytes skipped : Z) (c : chunk) : Z * option chunk :=
  if skipped <? skipBytes then
    let remaining := skipBytes - skipped in
    if len c <=? remaining then (skipped + len c, None)
    else (skipBytes, Some (subarray c remaining))
  else (skipped, Some c).

(** The transform fed with the chunks of a stream, in order. *)
Fixpoint feed (skipBytes skipped : Z) (cs : list chunk) : list chunk :=
  match cs with
  | [] => []
  | c :: cs' =>
      match transform skipBytes skipped c with
      | (skipped', Some out) => out :: feed skipBytes skipped' cs'
      | (skipped', None) => feed skipBytes skipped' cs'
      end
  end.

(** [createSkipTransform (skipBytes)]: [let skipped = 0]. *)
Definition createSkipTransform (skipBytes : Z) (cs : list chunk) : list chunk :=
  feed skipBytes 0 cs.

End Skip.

(** ** parseContentRange (src/misc.ts, lines 442-452) *)

Module ContentRange.

(** What [contentRange.match (...)] captures, after [Number]. *)
Record parsed := { start : Z; end_ : Z; total : Z }.

(** [\d] without the unicode flag: the ten ASCII digits. *)
Definition is_digit (c : ascii) : bool :=
  let n := nat_of_ascii c in (48 <=? n)%nat && (n <=? 57)%nat.

Definition digit_value (c : ascii) : Z := Z.of_nat (nat_of_ascii c) - 48.

(** [Number] of a string of decimal digits: the integer the numeral
    denotes. This is the JavaScript conversion for numerals up to 2^53;
    above, [Number] rounds to the nearest double, which this definition
    does not follow. *)
Definition Number (ds : list ascii) : Z :=
  fold_left (fun acc d => 10 * acc + digit_value d) ds 0.

(** A greedy [\d+]: the longest run of digits at the head of the string,
    and what follows it. The run is never shortened afterwards, because
    in the pattern each [\d+] is followed by a character that is not a
    digit (or by the end of the pattern). *)
Fixpoint digits (s : string) : list ascii * string :=
  match s with
  | String c s' =>
      if is_digit c then let (ds, rest) := digits s' in (c :: ds, rest)
      else ([], s)
  | EmptyString => ([], s)
  end.

(** A literal of the pattern at the head of the string. *)
Fixpoint literal (lit s : string) : option string :=
  match lit with
  | EmptyString => Some s
  | String a lit' =>
      match s with
      | String b s' => if Ascii.eqb a b then literal lit' s' else None
      | EmptyString => None
      end
  end.

(** The pattern [bytes (\d+)-(\d+)\/(\d+)] tried at the head of the
    string. *)
Definition match_here (s : string) : option parsed :=
  match literal "bytes " s with
  | None => None
  | Some s1 =>
      match digits s1 with
      | ([], _) => None
      | (d1, s2) =>
          match literal "-" s2 with
          | None => None
          | Some s3 =>
              match digits s3 with
              | ([], _) => None
              | (d2, s4) =>
                  match literal "/" s4 with
                  | None => None
                  | Some s5 =>
                      match digits s5 with
                      | ([], _) => None
                      | (d3, _) =>
                          Some {| start := Number d1;
                                  end_ := Number d2;
                                  total := Number d3 |}
                      end
                  end
              end
          end
      end
  end.

(** The pattern is not anchored: the leftmost position where it matches
    wins. *)
Fixpoint search (s : string) : option parsed :=
  match match_here s with
  | Some p => Some p
  | None =>
      match s with
      | String _ s' => search s'
      | EmptyString => None
      end
  end.

(** [parseContentRange]; [None] stands for the thrown
    'Invalid content range'. *)
Definition parseContentRange (contentRange : string) : option parsed :=
  search contentRange.

End ContentRange.

(** ** Responses, errors and the process-wide state *)

(** The headers the engine reads from an [http.IncomingMessage]. A header
    that is absent is [None]. Node's parser only lets a Content-Length of
    decimal digits through, hence [N]. *)
Record Headers := {
  location : option string;
  content_length : option N;
  accept_ranges : option string;
  content_range : option string
}.

(** An [http.IncomingMessage]: status line, headers and the body stream.
    The body delivers the chunks of [body] and then either ends
    ([body_error = None]) or is destroyed with an error (timeout, reset,
    'Http response aborted!'). *)
Record IncomingMessage := {
  statusCode : Z;
  headers : Headers;
  body : list chunk;
  body_error : option string
}.

(** What one [await fetch (url, options, proxyUrl)] settles to. *)
Inductive Exchange : Type :=
| Rejects (message : string)
| Responds (res : IncomingMessage).

Inductive FallbackReason : Type :=
| RangeNotSatisfiable                      (* '416 Range Not Satisfiable' *)
| MissingContentRange                      (* 'Missing Content-Range header' *)
| InvalidContentRange (contentRange : string).

Inductive Error : Type :=
| TransportError (message : string)        (* thrown by [fetch] or by a body stream *)
| TtlExpired                               (* 'ttl expired! too many(>..) 302 redirection.' *)
| NoLocation                               (* '302 found but no location!' *)
| InvalidURL                               (* the TypeError of [new URL] *)
| UnknownProtocol (protocol : string)      (* 'unknown protocol: ..' *)
| FallbackError (reason : FallbackReason)
| StatusAssertion (status : Z)             (* 'Request failed with status code ..' *)
| ContentLengthAssertion (n : Z)           (* 'Server returned .. bytes of data' *)
| SizeMismatch (expected returned : Z)     (* 'File size mismatch: ..' *)
| RangeMismatch (requested returned : Z)   (* 'Range mismatch: .. (gap detected)' *)
| UnexpectedStatus (status : Z)            (* 'Unexpected status code: ..' *)
| NonChunkedFailed (reason : FallbackReason) (* 'Download failed even in non-chunked mode: ..' *)
| ChunkFailed (cause : Error)              (* 'Download file with chunk failed! ..', { cause } *)
| FinishAborted (message : string).        (* [once (writeStream, 'finish', { signal })] rejected *)

(** A header value used as a condition: [undefined] and the empty string
    are falsy. *)
Definition truthy (h : option string) : option string :=
  match h with
  | Some EmptyString => None
  | other => other
  end.

(** [CONFIG] of src/config.ts. *)
Record Config := {
  HTTP_REQUEST_TIMEOUT : Z;
  HTTP_RESPONSE_TIMEOUT : Z;
  NO_SLICE_DOWN : bool;
  READY_RETRY : Z
}.

(** The request options that vary between attempts: [headers['Range']],
    [Some n] for the value [bytes=n-], [None] when the key is deleted. *)
Record Request := { Range : option Z }.

(** What the engine shares with the rest of the process: the module-level
    [unsupportedRangeDomains] and [CONFIG], the scratch file [tmpFile] of
    the session ([None]: no such file), and the requests sent so far,
    oldest first. *)
Record World := {
  CONFIG : Config;
  unsupportedRangeDomains : gset string;
  tmpFile : option (list byte);
  requests : list Request
}.

Definition with_tmpFile (f : option (list byte)) (w : World) : World :=
  {| CONFIG := CONFIG w;
     unsupportedRangeDomains := unsupportedRangeDomains w;
     tmpFile := f;
     requests := requests w |}.

(** [createWriteStream (tmpFile)]: flags 'w', an empty file. *)
Definition createWriteStream (w : World) : World := with_tmpFile (Some []) w.

(** [writeStream.destroy (); await rm (tmpFile, { force: true })] *)
Definition rm (w : World) : World := with_tmpFile None w.

(** Bytes written through [writeStream]. *)
Definition write (bytes : list byte) (w : World) : World :=
  with_tmpFile (Some (default [] (tmpFile w) ++ bytes)) w.

(** [unsupportedRangeDomains.add (hostname)] *)
Definition add_domain (hostname : string) (w : World) : World :=
  {| CONFIG := CONFIG w;
     unsupportedRangeDomains := {[ hostname ]} ∪ unsupportedRangeDomains w;
     tmpFile := tmpFile w;
     requests := requests w |}.

(** [unsupportedRangeDomains.has (hostname)] *)
Definition has_domain (hostname : string) (w : World) : bool :=
  bool_decide (hostname ∈ unsupportedRangeDomains w).

(** [fetch (url, requestOptions, proxyUrl)] leaves the process. *)
Definition send (r : Request) (w : World) : World :=
  {| CONFIG := CONFIG w;
     unsupportedRangeDomains := unsupportedRangeDomains w;
     tmpFile := tmpFile w;
     requests := requests w ++ [r] |}.

(** [stat (tmpFile).then (stats => stats.size).catch (() => 0)]. The
    measurement sees every byte written so far. In Node the write stream
    may still hold bytes that [pipeline] handed over when [stat] runs, so
    a measurement can be smaller than what was written; what is proved
    of a pass is proved for the size it measures. *)
Definition stat (w : World) : Z :=
  match tmpFile w with
  | Some f => Z.of_nat (length f)
  | None => 0
  end.

(** ** httpHeadHeader (src/misc.ts, lines 55-84) *)

(** [/^3/.test (String (res.statusCode))]: the decimal numeral starts with
    the digit 3. *)
Definition starts_with_3 (status : Z) : bool :=
  match Z.to_int status with
  | Decimal.Pos (Decimal.D3 _) => true
  | _ => false
  end.

(** Lines 71-74: the headers of a terminal response reached at [url],
    with [location] set to [url] when it is not the address asked for. *)
Definition probe_result (originUrl url : string) (res : IncomingMessage) : Headers :=
  if negb (String.eqb originUrl url) then
    {| location := Some url;
       content_length := content_length (headers res);
       accept_ranges := accept_ranges (headers res);
       content_range := content_range (headers res) |}
  else headers res.

Section Probe.

(** [new URL (location, url).toString ()] of Node; [None] for the
    TypeError it throws on an input that is no URL. *)
Variable resolve : string -> string -> option string.

(** The HEAD exchange for each address. *)
Variable head : string -> Exchange.

(** The [while (true)] loop. [ttl] is [REDIRECT_TTL] at the test
    [REDIRECT_TTL-- <= 0]: zero throws, a successor goes on with its
    predecessor. *)
Fixpoint head_loop (ttl : nat) (originUrl url : string) : Error + Headers :=
  match ttl with
  | O => inl TtlExpired
  | S ttl' =>
      match head url with
      | Rejects m => inl (TransportError m)
      | Responds res =>
          if negb (starts_with_3 (statusCode res)) then
            inr (probe_result originUrl url res)
          else
            match truthy (location (headers res)) with
            | None => inl NoLocation
            | Some loc =>
                match resolve loc url with
                | None => inl InvalidURL
                | Some url' => head_loop ttl' originUrl url'
                end
            end
      end
  end.

(** [let REDIRECT_TTL = 7] *)
Definition REDIRECT_TTL : nat := 7.

Definition httpHeadHeader (url : string) : Error + Headers :=
  head_loop REDIRECT_TTL url url.

End Probe.

(** ** downloadFileInChunks (src/misc.ts, lines 232-425) *)

(** The [let] variables of one call. *)
Record Session := {
  expectedTotal : option Z;      (* [number | null] *)
  start : Z;
  downSize : Z;
  retries : Z;
  useRange : bool;
  useChunked : bool
}.

(** Assignments to the variables of the session. *)
Definition set_expectedTotal (v : option Z) (s : Session) : Session :=
  {| expectedTotal := v; start := start s; downSize := downSize s;
     retries := retries s; useRange := useRange s; useChunked := useChunked s |}.

Definition set_start (v : Z) (s : Session) : Session :=
  {| expectedTotal := expectedTotal s; start := v; downSize := downSize s;
     retries := retries s; useRange := useRange s; useChunked := useChunked s |}.

Definition set_downSize (v : Z) (s : Session) : Session :=
  {| expectedTotal := expectedTotal s; start := start s; downSize := v;
     retries := retries s; useRange := useRange s; useChunked := useChunked s |}.

Definition set_retries (v : Z) (s : Session) : Session :=
  {| expectedTotal := expectedTotal s; start := start s; downSize := downSize s;
     retries := v; useRange := useRange s; useChunked := useChunked s |}.

Definition set_useChunked (v : bool) (s : Session) : Session :=
  {| expectedTotal := expectedTotal s; start := start s; downSize := downSize s;
     retries := retries s; useRange := useRange s; useChunked := v |}.

(** How a block of statements completes. *)
Inductive Completion : Type :=
| Normal
| Continue
| Break
| Throw (e : Error).

(** [const allowStatusCode = [ 200, 206 ]] *)
Definition allowStatusCode : list Z := [200; 206].

Definition includes (l : list Z) (x : Z) : bool := existsb (Z.eqb x) l.

(** Lines 263-268: the size of the file on disk replaces both counters
    whenever it differs from [downSize]. *)
Definition remeasure (s : Session) (w : World) : Session :=
  let fileStats := stat w in
  if negb (fileStats =? downSize s) then
    set_start fileStats (set_downSize fileStats s)
  else s.

(** Lines 275-280: the Range header of the attempt. *)
Definition request_of (s : Session) : Request :=
  {| Range := if useRange s then Some (start s) else None |}.

(** [await pipeline (res, ..., writeStream, { end: false, signal })]: the
    chunks the body delivered go through the transforms into the file;
    the promise rejects when the body broke. The bytes count as written
    when the promise settles (see [stat]). *)
Definition pipeline (res : IncomingMessage) (through : list chunk -> list chunk)
    (w : World) : World * option Error :=
  (write (concat (through (body res))) w,
   match body_error res with
   | Some m => Some (TransportError m)
   | None => None
   end).

(** Lines 316-324: the total of a 206 against [expectedTotal]. *)
Definition check_total (total : Z) (s : Session) : Error + Session :=
  match expectedTotal s with
  | None => inr (set_expectedTotal (Some total) s)
  | Some expected =>
      if negb (total =? expected) then inl (SizeMismatch expected total)
      else inr s
  end.

(** Lines 295-351: the branch of status 206. *)
Definition on206 (res : IncomingMessage) (s : Session) (w : World)
    : Session * World * Completion :=
  match truthy (content_range (headers res)) with
  | None => (s, w, Throw (FallbackError MissingContentRange))
  | Some contentRange =>
      match ContentRange.parseContentRange contentRange with
      | None => (s, w, Throw (FallbackError (InvalidContentRange contentRange)))
      | Some parsed =>
          let actualStart := ContentRange.start parsed in
          let end_ := ContentRange.end_ parsed in
          let total := ContentRange.total parsed in
          match check_total total s with
          | inl e => (s, w, Throw e)
          | inr s0 =>
              let s1 := set_useChunked true s0 in
              if negb (actualStart =? start s1) then
                if start s1 <? actualStart then
                  (s1, w, Throw (RangeMismatch (start s1) actualStart))
                else
                  let skipBytes := start s1 - actualStart in
                  let (w1, failed) :=
                    pipeline res (Skip.createSkipTransform skipBytes) w in
                  match failed with
                  | Some e => (s1, w1, Throw e)
                  | None =>
                      let downSize' :=
                        downSize s1 + (end_ - actualStart + 1 - skipBytes) in
                      (set_retries 3
                         (set_start downSize' (set_downSize downSize' s1)),
                       w1, Continue)
                  end
              else
                let (w1, failed) := pipeline res (fun cs => cs) w in
                match failed with
                | Some e => (s1, w1, Throw e)
                | None =>
                    let downSize' := downSize s1 + (end_ - start s1 + 1) in
                    (set_start downSize' (set_downSize downSize' s1),
                     w1, Normal)
                end
          end
      end
  end.

(** Lines 352-368: the branch of status 200. *)
Definition on200 (res : IncomingMessage) (contentLength : Z) (s : Session)
    (w : World) : Session * World * Completion :=
  let restart := useChunked s || (0 <? start s) in
  let w0 := if restart then createWriteStream (rm w) else w in
  let s0 := if restart then set_downSize 0 (set_start 0 s) else s in
  let s1 := set_expectedTotal (Some contentLength) s0 in
  let (w1, failed) := pipeline res (fun cs => cs) w0 in
  match failed with
  | Some e => (s1, w1, Throw e)
  | None => (set_downSize contentLength s1, w1, Break)
  end.

(** Lines 283-373: the [try] block, from the settled [fetch] on. *)
Definition tryBlock (x : Exchange) (s : Session) (w : World)
    : Session * World * Completion :=
  match x with
  | Rejects m => (s, w, Throw (TransportError m))
  | Responds res =>
      if statusCode res =? 416 then
        (s, w, Throw (FallbackError RangeNotSatisfiable))
      else if negb (includes allowStatusCode (statusCode res)) then
        (s, w, Throw (StatusAssertion (statusCode res)))
      else
        (* [Number (res.headers['content-length']) || 0] *)
        let contentLength :=
          match content_length (headers res) with
          | Some n => Z.of_N n
          | None => 0
          end in
        if negb (0 <=? contentLength) then
          (s, w, Throw (ContentLengthAssertion contentLength))
        else if statusCode res =? 206 then
          match on206 res s w with
          | (s1, w1, Normal) => (set_retries 3 s1, w1, Normal)   (* line 373 *)
          | other => other
          end
        else if statusCode res =? 200 then on200 res contentLength s w
        else (s, w, Throw (UnexpectedStatus (statusCode res)))
  end.

(** An error of the class [FallbackError]. *)
Definition is_fallback (e : Error) : bool :=
  match e with
  | FallbackError _ => true
  | _ => false
  end.

(** Lines 374-411: the [catch] block. A [Throw] here leaves the
    function. *)
Definition catchBlock (hostname : string) (error : Error) (s : Session)
    (w : World) : Session * World * Completion :=
  match error with
  | FallbackError reason =>
      let w1 := rm (add_domain hostname w) in
      if negb (useRange s) then (s, w1, Throw (NonChunkedFailed reason))
      else
        ({| expectedTotal := None;
            start := 0;
            downSize := 0;
            retries := 3;
            useRange := false;
            useChunked := false |}, createWriteStream w1, Continue)
  | err =>
      let s1 := set_retries (retries s - 1) s in        (* [--retries] *)
      if retries s1 <=? 0 then (s1, rm w, Throw (ChunkFailed err))
      else (s1, w, Normal)                              (* [await setTimeout (100)] *)
  end.

(** Line 412: [while (expectedTotal === null || downSize < expectedTotal)] *)
Definition whileCondition (s : Session) : bool :=
  match expectedTotal s with
  | None => true
  | Some expected => downSize s <? expected
  end.

(** Where one pass of the [do ... while] leads. *)
Inductive Next : Type :=
| Again                (* the condition holds: one more pass *)
| Leaves               (* [break], or the condition fails *)
| Fails (e : Error).   (* an error leaves the function *)

(** One pass of the loop, given what the exchange of this pass settles
    to. *)
Definition iteration (hostname : string) (x : Exchange) (s : Session)
    (w : World) : Session * World * Next :=
  let s1 := remeasure s w in
  let w1 := send (request_of s1) w in
  let '(s3, w3, c) :=
    match tryBlock x s1 w1 with
    | (s2, w2, Throw e) => catchBlock hostname e s2 w2
    | other => other
    end in
  match c with
  | Throw e => (s3, w3, Fails e)
  | Break => (s3, w3, Leaves)
  | Normal | Continue =>
      (s3, w3, if whileCondition s3 then Again else Leaves)
  end.

(** What a call has come to once the script of exchanges is used up. *)
Inductive Outcome : Type :=
| Returns (readStream : list byte)  (* the bytes the returned stream reads *)
| Throws (e : Error)
| Awaits.                           (* suspended on the next exchange *)

(** The [do ... while] loop over the exchanges the network supplies. *)
Fixpoint loop (hostname : string) (script : list Exchange) (s : Session)
    (w : World) : Session * World * option Next :=
  match script with
  | [] => (s, w, None)
  | x :: script' =>
      match iteration hostname x s w with
      | (s', w', Again) => loop hostname script' s' w'
      | (s', w', n) => (s', w', Some n)
      end
  end.

(** Lines 414-424. [finish] is how [once (writeStream, 'finish',
    { signal })] settles: [None] for the event, [Some m] for a rejection
    (a write error aborted [signal]). *)
Definition finalize (finish : option string) (w : World) : World * Outcome :=
  match finish with
  | Some m => (w, Throws (FinishAborted m))
  | None => (w, Returns (default [] (tmpFile w)))
  end.

(** Lines 252-258: the initial values. *)
Definition initial (hostname : string) (w : World) : Session :=
  {| expectedTotal := None;
     start := 0;
     downSize := 0;
     retries := 3;
     useRange := negb (has_domain hostname w);
     useChunked := false |}.

Definition downloadFileInChunks (hostname : string) (script : list Exchange)
    (finish : option string) (w : World) : World * Outcome :=
  let w0 := createWriteStream w in
  match loop hostname script (initial hostname w0) w0 with
  | (_, w', Some (Fails e)) => (w', Throws e)
  | (_, w', Some _) => finalize finish w'
  | (_, w', None) => (w', Awaits)
  end.

(** ** httpStream (src/misc.ts, lines 103-127) *)

(** The fields read from [new URL (url)]; [port] is the empty string for
    the default port of the scheme. *)
Record URL := { protocol : string; hostname : string; port : string }.

(** [getProtocol]: the keys of [protocolMap]. *)
Definition getProtocol (protocol : string) : bool :=
  String.eqb protocol "http:" || String.eqb protocol "https:".

(** Lines 117-118: [hostname:port] with the default port filled in. *)
Definition hostKey (u : URL) : string :=
  let defaultPort := if String.eqb (protocol u) "https:" then "443" else "80" in
  hostname u +:+ ":" +:+
    (if String.eqb (port u) "" then defaultPort else port u).

(** Lines 105-107: [if (headHeaders.location) { url = headHeaders.location }] *)
Definition redirected (url : string) (headHeaders : Headers) : string :=
  match truthy (location headHeaders) with
  | Some l => l
  | None => url
  end.

Section Fetch.

Variable resolve : string -> string -> option string.

(** [new URL (url)]; [None] for its TypeError. *)
Variable parseURL : string -> option URL.

Variable head : string -> Exchange.

Definition httpStream (url : string) (script : list Exchange)
    (finish : option string) (w : World) : World * Outcome :=
  match httpHeadHeader resolve head url with
  | inl e => (w, Throws e)
  | inr headHeaders =>
      let url := redirected url headHeaders in
      match parseURL url with
      | None => (w, Throws InvalidURL)
      | Some u =>
          if negb (getProtocol (protocol u)) then
            (w, Throws (UnknownProtocol (protocol u)))
          else downloadFileInChunks (hostKey u) script finish w
      end
  end.

End Fetch.

(** ** The content handle pool (specification, section 4.4) *)

Module Pool.

(** The identity of a handle instance: its rank among the handles
    constructed so far. *)
Definition Handle : Type := nat.

(** Modelled from the spec: the pool of section 3 ("insertion-ordered
    mapping, Source Address -> Content Handle, bounded capacity N"). The
    class that owns it, src/file-box.ts, is not among the sources. The
    entries are kept oldest first. *)
Record Pool := {
  capacity : nat;
  entries : list (string * Handle);
  constructed : nat
}.

Definition empty (N : nat) : Pool :=
  {| capacity := N; entries := []; constructed := 0 |}.

(** The handle stored for an address, by exact match. *)
Fixpoint find (address : string) (es : list (string * Handle)) : option Handle :=
  match es with
  | [] => None
  | (a, h) :: es' => if String.eqb address a then Some h else find address es'
  end.

(** Modelled from the spec: [get (address, unique?)] of section 4.4
    ([FileBox.fromUrl] of src/file-box.ts, not among the sources).
    "Non-unique: returns the existing handle for an exact address match
    if present; otherwise constructs, inserts, and evicts the oldest
    entry if over capacity. Unique: always constructs a fresh handle and
    never touches the shared map." A hit leaves the order as it is. *)
Definition get (address : string) (unique : bool) (p : Pool) : Handle * Pool :=
  let fresh := constructed p in
  if unique then
    (fresh, {| capacity := capacity p;
               entries := entries p;
               constructed := S fresh |})
  else
    match find address (entries p) with
    | Some h => (h, p)
    | None =>
        let inserted := entries p ++ [(address, fresh)] in
        let kept :=
          if (capacity p <? length inserted)%nat then tail inserted
          else inserted in
        (fresh, {| capacity := capacity p;
                   entries := kept;
                   constructed := S fresh |})
    end.

(** Non-unique lookups of the addresses, in order. *)
Definition fill (addresses : list string) (p : Pool) : Pool :=
  fold_left (fun q a => snd (get a false q)) addresses p.

End Pool.

(** ** Environments used in the examples *)

(** A [new URL (location, url)] for absolute locations: the location
    itself. *)
Definition absolute (loc base : string) : option string := Some loc.

(** A [new URL (url)] for the addresses of the examples, which are all on
    [http://files.example]. *)
Definition files_example (url : string) : option URL :=
  Some {| protocol := "http:"; hostname := "files.example"; port := "" |}.

(** A HEAD exchange: a server that redirects each address of [urls] to the
    next one and answers the last one with [final]. *)
Fixpoint redirect_chain (urls : list string) (final : Headers) (url : string)
    : Exchange :=
  match urls with
  | [] => Rejects "ENOTFOUND"
  | u :: rest =>
      if String.eqb url u then
        match rest with
        | [] => Responds {| statusCode := 200; headers := final;
                            body := []; body_error := None |}
        | u' :: _ =>
            Responds {| statusCode := 302;
                        headers := {| location := Some u';
                                      content_length := None;
                                      accept_ranges := None;
                                      content_range := None |};
                        body := []; body_error := None |}
        end
      else redirect_chain rest final url
  end.

Definition no_headers : Headers :=
  {| location := None; content_length := None;
     accept_ranges := None; content_range := None |}.

(** A GET response with the given status, Content-Length, Content-Range
    and a body that ends normally. *)
Definition message (status : Z) (contentLength : option N)
    (contentRange : option string) (chunks : list chunk) : IncomingMessage :=
  {| statusCode := status;
     headers := {| location := None;
                   content_length := contentLength;
                   accept_ranges := None;
                   content_range := contentRange |};
     body := chunks; body_error := None |}.

(** Five bytes 0x41. *)
Definition five_A : chunk := [x41; x41; x41; x41; x41].

Definition default_config : Config :=
  {| HTTP_REQUEST_TIMEOUT := 10 * 1000;
     HTTP_RESPONSE_TIMEOUT := 60 * 1000;
     NO_SLICE_DOWN := false;
     READY_RETRY := 3 |}.

(** A process that has fetched nothing yet. *)
Definition fresh_process : World :=
  {| CONFIG := default_config;
     unsupportedRangeDomains := ∅;
     tmpFile := None;
     requests := [] |}.

(** ** Vocabulary of the statements *)

(** The three results of a pass. *)
Definition session_after (r : Session * World * Next) : Session := r.1.1.
Definition world_after (r : Session * World * Next) : World := r.1.2.
Definition next_after (r : Session * World * Next) : Next := r.2.

(** The pass [r], started from [s] and [w], handled the error [e] the way
    the [catch] block handles what is not a FallbackError. Writing
    [asked] for the request the pass sent:
    - one unit of the retry budget is used; the strategy and the set of
      hosts are as before; the resume offset is the one just asked for
      and the tracked count is the size measured at the head of the pass;
      [asked] is the one request the pass added to those sent;
    - with the budget used up, the scratch file is removed and the call
      fails with [e] as cause;
    - with budget left, the scratch file is as it was and the loop tests
      its condition on the measured size: when that size has reached the
      expected total the loop ends, otherwise there is one more pass; and
      a pass that starts from the session this one left, with a scratch
      file that measures the same, sends [asked] again. *)
Definition retry_path (hostname : string) (e : Error) (s : Session)
    (w : World) (r : Session * World * Next) : Prop :=
  let asked := request_of (remeasure s w) in
  let s' := session_after r in
  let w' := world_after r in
  retries s' = retries s - 1 /\
  useRange s' = useRange s /\
  start s' = start (remeasure s w) /\
  downSize s' = stat w /\
  unsupportedRangeDomains w' = unsupportedRangeDomains w /\
  requests w' = requests w ++ [asked] /\
  (retries s <= 1 ->
     next_after r = Fails (ChunkFailed e) /\ tmpFile w' = None) /\
  (1 < retries s ->
     tmpFile w' = tmpFile w /\
     next_after r = match expectedTotal s' with
                    | Some expected =>
                        if stat w <? expected then Again else Leaves
                    | None => Again
                    end /\
     forall (x' : Exchange) (w'' : World),
       stat w'' = stat w ->
       requests (world_after (iteration hostname x' s' w''))
       = requests w'' ++ [asked]).

(** A response that makes the engine give up ranges: status 416, or
    status 206 with a Content-Range that is absent, empty or not matched
    by the pattern. *)
Definition range_refused (res : IncomingMessage) : bool :=
  (statusCode res =? 416) ||
  ((statusCode res =? 206) &&
     match truthy (content_range (headers res)) with
     | None => true
     | Some contentRange =>
         match ContentRange.parseContentRange contentRange with
         | None => true
         | Some _ => false
         end
     end).

(** The session a fallback starts over with (lines 393-398). *)
Definition whole_file_session : Session :=
  {| expectedTotal := None; start := 0; downSize := 0;
     retries := 3; useRange := false; useChunked := false |}.

(** A session that has five bytes of ten, under the range strategy, and
    the state of the process at that point. *)
Definition five_of_ten : Session :=
  {| expectedTotal := Some 10; start := 5; downSize := 5;
     retries := 3; useRange := true; useChunked := true |}.

Definition five_on_disk : World :=
  write five_A (createWriteStream fresh_process).

(** What a probe reports for a resource of ten bytes served with ranges. *)
Definition ten_bytes_with_ranges : Headers :=
  {| location := None; content_length := Some 10%N;
     accept_ranges := Some "bytes"; content_range := None |}.

(** [follows resolve head u k u']: starting at [u], the server [head]
    answers [k] times in a row with a 3xx status and a Location that
    [resolve] turns into the next address, the last of which is [u']. *)
Inductive follows (resolve : string -> string -> option string)
    (head : string -> Exchange) : string -> nat -> string -> Prop :=
| follows_none (u : string) : follows resolve head u 0 u
| follows_hop (u : string) (res : IncomingMessage) (loc u' : string)
    (k : nat) (u'' : string) :
    head u = Responds res ->
    starts_with_3 (statusCode res) = true ->
    truthy (location (headers res)) = Some loc ->
    resolve loc u = Some u' ->
    follows resolve head u' k u'' ->
    follows resolve head u (S k) u''.

(** Addresses for chains of redirects. *)
Definition hops_0_to_6 : list string :=
  ["http://files.example/0"; "http://files.example/1";
   "http://files.example/2"; "http://files.example/3";
   "http://files.example/4"; "http://files.example/5";
   "http://files.example/6"].

Definition hops_0_to_7 : list string :=
  hops_0_to_6 ++ ["http://files.example/7"].

(** ** dataUrlToBase64 (src/misc.ts, lines 44-47) *)

(** [c] occurs in [s]. *)
Fixpoint contains (c : ascii) (s : string) : bool :=
  match s with
  | EmptyString => false
  | String x s' => Ascii.eqb x c || contains c s'
  end.

(** [dataUrl.split (',')]: the pieces between the commas, never an empty
    array. *)
Fixpoint split_comma (s : string) : list string :=
  match s with
  | EmptyString => [EmptyString]
  | String x s' =>
      if Ascii.eqb x "," then EmptyString :: split_comma s'
      else
        match split_comma s' with
        | piece :: pieces => String x piece :: pieces
        | [] => [String x EmptyString]
        end
  end.

(** [dataList[dataList.length - 1]!] *)
Definition dataUrlToBase64 (dataUrl : string) : string :=
  List.last (split_comma dataUrl) EmptyString.

(** ** httpHeaderToFileName (src/misc.ts, lines 86-101) *)

Module FileName.

(** The quotation mark. *)
Definition quote : ascii := Ascii.ascii_of_nat 34.

(** What [.] does not match in a header value: line feed and carriage
    return. *)
Definition is_line_terminator (c : ascii) : bool :=
  Ascii.eqb c (Ascii.ascii_of_nat 10) || Ascii.eqb c (Ascii.ascii_of_nat 13).

(** The flag [i]: ASCII letters are compared without their case. *)
Definition upper (c : ascii) : ascii :=
  let n := nat_of_ascii c in
  if (97 <=? n)%nat && (n <=? 122)%nat then Ascii.ascii_of_nat (n - 32) else c.

Definition eqb_i (a b : ascii) : bool := Ascii.eqb (upper a) (upper b).

(** A literal of the pattern at the head of the string, whatever the
    case. *)
Fixpoint literal_i (lit s : string) : option string :=
  match lit with
  | EmptyString => Some s
  | String a lit' =>
      match s with
      | String b s' => if eqb_i a b then literal_i lit' s' else None
      | EmptyString => None
      end
  end.

(** The end of the pattern, an optional quotation mark and [$]: nothing
    or one quotation mark is left. *)
Definition closes (s : string) : bool :=
  match s with
  | EmptyString => true
  | String q EmptyString => Ascii.eqb q quote
  | _ => false
  end.

(** The group [(.+[^Q])] and the end of the pattern at [s], writing Q
    for the quotation mark, where [.+] takes the head of [s]: the longer
    alternatives of the greedy [.+] are tried first, then the one where
    [.+] stops here and [[^Q]] takes the next character. The result is
    the capture. *)
Fixpoint capture (s : string) : option string :=
  match s with
  | EmptyString => None
  | String x s' =>
      if is_line_terminator x then None
      else
        match capture s' with
        | Some cap => Some (String x cap)
        | None =>
            match s' with
            | String c s'' =>
                if negb (Ascii.eqb c quote) && closes s''
                then Some (String x (String c EmptyString))
                else None
            | EmptyString => None
            end
        end
  end.

(** The pattern after its literal: the optional quotation mark is taken
    first and given back when the rest does not match. *)
Definition after_literal (s : string) : option string :=
  match s with
  | String q s' =>
      if Ascii.eqb q quote then
        match capture s' with
        | Some cap => Some cap
        | None => capture s
        end
      else capture s
  | EmptyString => capture s
  end.

(** The pattern [/attachment; filename=Q?(.+[^Q])Q?$/i] (Q the quotation
    mark) tried at the head of the string. *)
Definition match_here (s : string) : option string :=
  match literal_i "attachment; filename=" s with
  | Some rest => after_literal rest
  | None => None
  end.

(** The leftmost position where the pattern matches. *)
Fixpoint search (s : string) : option string :=
  match match_here s with
  | Some cap => Some cap
  | None =>
      match s with
      | String _ s' => search s'
      | EmptyString => None
      end
  end.

(** A name without quotation marks, line feeds and carriage returns. *)
Definition plain (name : string) : bool :=
  negb (contains quote name)
  && negb (contains (Ascii.ascii_of_nat 10) name)
  && negb (contains (Ascii.ascii_of_nat 13) name).

(** [httpHeaderToFileName], on the value of [headers['content-disposition']];
    [None] is [null]. A capture is never empty, so [matches[1]] is
    truthy whenever there is a match. *)
Definition httpHeaderToFileName (contentDisposition : option string)
    : option string :=
  match truthy contentDisposition with
  | None => None
  | Some value => search value
  end.

End FileName.

(** ** Numbers in a header *)

(** The decimal numeral of a natural number, as a template literal
    [`${n}`] renders it. *)
Fixpoint uint_string (d : Decimal.uint) : string :=
  match d with
  | Decimal.Nil => EmptyString
  | Decimal.D0 d' => String "0" (uint_string d')
  | Decimal.D1 d' => String "1" (uint_string d')
  | Decimal.D2 d' => String "2" (uint_string d')
  | Decimal.D3 d' => String "3" (uint_string d')
  | Decimal.D4 d' => String "4" (uint_string d')
  | Decimal.D5 d' => String "5" (uint_string d')
  | Decimal.D6 d' => String "6" (uint_string d')
  | Decimal.D7 d' => String "7" (uint_string d')
  | Decimal.D8 d' => String "8" (uint_string d')
  | Decimal.D9 d' => String "9" (uint_string d')
  end.

Definition decimal (n : nat) : string := uint_string (Nat.to_uint n).

(** A Content-Range whose total is not known, which the grammar of the
    header writes with a star. *)
Definition render_unknown_total (first last : nat) : string :=
  "bytes " +:+ decimal first +:+ "-" +:+ decimal last +:+ "/*".

(** The header a server sends with a range, as the servers of the tests
    build it: [`bytes ${start}-${end}/${FILE_SIZE}`]. *)
Definition render_content_range (first last total : nat) : string :=
  "bytes " +:+ decimal first +:+ "-" +:+ decimal last +:+ "/" +:+ decimal total.

(** ** A server that holds one resource *)

(** [honest c x]: the exchange [x] is one that a server holding the bytes
    [c] can produce, whatever was asked. A rejected request and a
    response of any status but 200 and 206 are always possible. A 206
    whose Content-Range parses declares the length of [c] as total and a
    range first..last inside [c], and its body delivers the bytes of [c]
    from first on: all of the range when the body ends normally, some
    beginning of it when the body breaks. A 200 declares the length of
    [c] and delivers [c] from its first byte on, all of it when the body
    ends normally. *)
Definition honest (c : list byte) (x : Exchange) : Prop :=
  match x with
  | Rejects _ => True
  | Responds res =>
      (statusCode res = 206 ->
       forall contentRange parsed,
         truthy (content_range (headers res)) = Some contentRange ->
         ContentRange.parseContentRange contentRange = Some parsed ->
         ContentRange.total parsed = Z.of_nat (length c) /\
         0 <= ContentRange.start parsed <= ContentRange.end_ parsed /\
         ContentRange.end_ parsed < Z.of_nat (length c) /\
         exists j : nat,
           concat (body res)
           = take j (drop (Z.to_nat (ContentRange.start parsed)) c) /\
           Z.of_nat j
           <= ContentRange.end_ parsed - ContentRange.start parsed + 1 /\
           (body_error res = None ->
            Z.of_nat j
            = ContentRange.end_ parsed - ContentRange.start parsed + 1)) /\
      (statusCode res = 200 ->
       content_length (headers res) = Some (N.of_nat (length c)) /\
       exists j : nat,
         (j <= length c)%nat /\
         concat (body res) = take j c /\
         (body_error res = None -> concat (body res) = c))
  end.

(** The state of a session that has only written bytes of [c], in order
    and from the first one on: the counters agree, the expected total is
    unknown or the length of [c], and the scratch file holds a beginning
    of [c]. *)
Definition consistent (c : list byte) (s : Session) (w : World) : Prop :=
  start s = downSize s /\
  (expectedTotal s = None \/ expectedTotal s = Some (Z.of_nat (length c))) /\
  exists m : nat, (m <= length c)%nat /\ tmpFile w = Some (take m c).

(** A consistent state in which the loop only ends with all of [c] in the
    scratch file. *)
Definition ready (c : list byte) (s : Session) (w : World) : Prop :=
  consistent c s w /\ (whileCondition s = false -> tmpFile w = Some c).

(** Ten different bytes. *)
Definition A_to_J : list byte :=
  [x41; x42; x43; x44; x45; x46; x47; x48; x49; x4a].

(** A session that has the first three bytes of [A_to_J] on disk and has
    used one unit of its retry budget, and a range that starts one byte
    before the offset then asked for. *)
Definition three_of_ten : Session :=
  {| expectedTotal := Some 10; start := 3; downSize := 3;
     retries := 2; useRange := true; useChunked := true |}.

Definition three_on_disk : World :=
  write [x41; x42; x43] (createWriteStream fresh_process).

Definition overlapping_range : Exchange :=
  Responds (message 206 None (Some "bytes 2-9/10")
              [[x43; x44; x45; x46]; [x47; x48; x49; x4a]]).

(* ===================================================================== *)
(** * Part II: properties                                                 *)
(* ===================================================================== *)

Section SkipFacts.
Import Skip.

Lemma len_nonneg c : 0 <= len c.
Proof. unfold len. lia. Qed.

Lemma subarray_drop c i : 0 <= i -> subarray c i = drop (Z.to_nat i) c.
Proof.
  intros Hi. unfold subarray.
  destruct (i <? 0) eqn:E; [apply Z.ltb_lt in E; lia | reflexivity].
Qed.

(** Once the quota is used up the transform is the identity. *)
Lemma feed_passthrough skipBytes skipped cs :
  skipBytes <= skipped -> feed skipBytes skipped cs = cs.
Proof.
  intros Hle. induction cs as [|c cs IH]; simpl; [reflexivity|].
  unfold transform.
  destruct (skipped <? skipBytes) eqn:E; [apply Z.ltb_lt in E; lia|].
  now rewrite IH.
Qed.

(** The general invariant: with [skipped] bytes already dropped, the
    output is the input without its next [skipBytes - skipped] bytes. *)
Lemma feed_concat skipBytes skipped cs :
  0 <= skipped <= skipBytes ->
  concat (feed skipBytes skipped cs)
  = drop (Z.to_nat (skipBytes - skipped)) (concat cs).
Proof.
  revert skipped. induction cs as [|c cs IH]; intros skipped Hs; simpl.
  - now rewrite drop_nil.
  - unfold transform.
    destruct (skipped <? skipBytes) eqn:Elt.
    + apply Z.ltb_lt in Elt.
      destruct (len c <=? skipBytes - skipped) eqn:Ele.
      * apply Z.leb_le in Ele. pose proof (len_nonneg c) as Hc.
        rewrite IH by lia. unfold len in *.
        rewrite drop_app_ge by lia. f_equal. lia.
      * apply Z.leb_gt in Ele. simpl.
        rewrite feed_passthrough by lia.
        rewrite subarray_drop by lia. unfold len in *.
        rewrite drop_app_le by lia. reflexivity.
    + apply Z.ltb_ge in Elt. simpl.
      rewrite feed_passthrough by lia.
      replace (skipBytes - skipped) with 0 by lia. reflexivity.
Qed.

End SkipFacts.

(** C10. For every skip count [s >= 0] and every sequence of input chunks,
    the concatenated output of the skip transform is the concatenated input
    without its first [min s (total length)] bytes; two chunkings of the
    same byte sequence therefore give the same output bytes. *)
Theorem skip_transform_drops_prefix (s : Z) (cs : list chunk) :
  0 <= s ->
  concat (Skip.createSkipTransform s cs)
  = drop (Z.to_nat (Z.min s (Z.of_nat (length (concat cs))))) (concat cs)
  /\ forall cs' : list chunk,
       concat cs' = concat cs ->
       concat (Skip.createSkipTransform s cs')
       = concat (Skip.createSkipTransform s cs).
Proof.
  intros Hs.
  assert (Hgen : forall l : list chunk,
             concat (Skip.createSkipTransform s l) = drop (Z.to_nat s) (concat l)).
  { intros l. unfold Skip.createSkipTransform.
    rewrite feed_concat by lia. f_equal. lia. }
  split.
  - rewrite Hgen.
    destruct (Z.le_gt_cases s (Z.of_nat (length (concat cs)))) as [Hle|Hgt].
    + now rewrite Z.min_l by lia.
    + rewrite Z.min_r by lia. rewrite Nat2Z.id.
      rewrite !drop_ge; [reflexivity | lia | lia].
  - intros cs' Heq. now rewrite !Hgen, Heq.
Qed.

Lemma skip_transform_drops_prefix_witness :
  concat (Skip.createSkipTransform 3 [[x41; x42]; [x43; x44; x45]; [x46]])
  = drop (Z.to_nat (Z.min 3 (Z.of_nat (length
      (concat [[x41; x42]; [x43; x44; x45]; [x46]])))))
      (concat [[x41; x42]; [x43; x44; x45]; [x46]])
  /\ forall cs' : list chunk,
       concat cs' = concat [[x41; x42]; [x43; x44; x45]; [x46]] ->
       concat (Skip.createSkipTransform 3 cs')
       = concat (Skip.createSkipTransform 3 [[x41; x42]; [x43; x44; x45]; [x46]]).
Proof. apply (skip_transform_drops_prefix 3); lia. Defined.


Example parse_plain :
  ContentRange.parseContentRange "bytes 5-9/10"
  = Some {| ContentRange.start := 5; ContentRange.end_ := 9;
            ContentRange.total := 10 |}.
Proof. reflexivity. Qed.

Example parse_unknown_total : ContentRange.parseContentRange "bytes 5-9/*" = None.
Proof. reflexivity. Qed.

Example parse_unanchored :
  ContentRange.parseContentRange "xbytes bytes 05-9/10abc"
  = Some {| ContentRange.start := 5; ContentRange.end_ := 9;
            ContentRange.total := 10 |}.
Proof. reflexivity. Qed.

(** ** One pass of the loop *)

Lemma neq_eqb (a b : Z) : a <> b -> (a =? b) = false.
Proof. apply Z.eqb_neq. Qed.

Lemma whileCondition_set_retries v s :
  whileCondition (set_retries v s) = whileCondition s.
Proof. reflexivity. Qed.

Lemma tryBlock_other_status res s w :
  statusCode res <> 200 -> statusCode res <> 206 -> statusCode res <> 416 ->
  tryBlock (Responds res) s w = (s, w, Throw (StatusAssertion (statusCode res))).
Proof.
  intros H200 H206 H416. unfold tryBlock, includes, allowStatusCode. simpl.
  now rewrite !neq_eqb by assumption.
Qed.

Lemma catchBlock_ordinary hostname e s w :
  is_fallback e = false ->
  catchBlock hostname e s w
  = (set_retries (retries s - 1) s,
     (if retries s - 1 <=? 0 then rm w else w),
     (if retries s - 1 <=? 0 then Throw (ChunkFailed e) else Normal)).
Proof.
  destruct e; simpl; try discriminate; intros _;
    destruct (retries s - 1 <=? 0); reflexivity.
Qed.

(** A pass whose [try] block throws an error that is no FallbackError. *)
Lemma iteration_ordinary_error hostname x s w s2 w2 e :
  tryBlock x (remeasure s w) (send (request_of (remeasure s w)) w)
  = (s2, w2, Throw e) ->
  is_fallback e = false ->
  iteration hostname x s w
  = (set_retries (retries s2 - 1) s2,
     (if retries s2 - 1 <=? 0 then rm w2 else w2),
     (if retries s2 - 1 <=? 0 then Fails (ChunkFailed e)
      else if whileCondition s2 then Again else Leaves)).
Proof.
  intros Htry He. unfold iteration. rewrite Htry.
  rewrite catchBlock_ordinary by assumption.
  destruct (retries s2 - 1 <=? 0); reflexivity.
Qed.

Lemma retries_remeasure s w : retries (remeasure s w) = retries s.
Proof. unfold remeasure. now destruct (negb _). Qed.

Lemma useRange_remeasure s w : useRange (remeasure s w) = useRange s.
Proof. unfold remeasure. now destruct (negb _). Qed.

Lemma expectedTotal_remeasure s w : expectedTotal (remeasure s w) = expectedTotal s.
Proof. unfold remeasure. now destruct (negb _). Qed.

Lemma useChunked_remeasure s w : useChunked (remeasure s w) = useChunked s.
Proof. unfold remeasure. now destruct (negb _). Qed.

(** ** Requests sent by a pass *)

Ltac break_match :=
  match goal with
  | |- context [match ?x with _ => _ end] => destruct x eqn:?
  end.

Lemma requests_on206 res s w : requests (on206 res s w).1.2 = requests w.
Proof.
  unfold on206, check_total, pipeline.
  repeat (break_match; simpl; try reflexivity).
Qed.

Lemma requests_on200 res n s w : requests (on200 res n s w).1.2 = requests w.
Proof.
  unfold on200, pipeline.
  repeat (break_match; simpl; try reflexivity).
Qed.

Lemma requests_tryBlock x s w : requests (tryBlock x s w).1.2 = requests w.
Proof.
  unfold tryBlock.
  destruct x as [m|res]; [reflexivity|].
  destruct (statusCode res =? 416); [reflexivity|].
  destruct (negb (includes allowStatusCode (statusCode res))); [reflexivity|].
  destruct (negb _); [reflexivity|].
  destruct (statusCode res =? 206).
  - pose proof (requests_on206 res s w) as H.
    destruct (on206 res s w) as [[s1 w1] c]. now destruct c.
  - destruct (statusCode res =? 200); [apply requests_on200 | reflexivity].
Qed.

Lemma requests_catchBlock hostname e s w :
  requests (catchBlock hostname e s w).1.2 = requests w.
Proof.
  unfold catchBlock.
  repeat (break_match; simpl in *; try reflexivity).
Qed.

Lemma iteration_requests hostname x s w :
  requests (world_after (iteration hostname x s w))
  = requests w ++ [request_of (remeasure s w)].
Proof.
  unfold world_after, iteration.
  pose proof (requests_tryBlock x (remeasure s w)
                (send (request_of (remeasure s w)) w)) as Ht.
  destruct (tryBlock x (remeasure s w) (send (request_of (remeasure s w)) w))
    as [[s2 w2] c]. simpl in Ht.
  destruct c as [| | |e]; simpl; try exact Ht.
  pose proof (requests_catchBlock hostname e s2 w2) as Hc.
  destruct (catchBlock hostname e s2 w2) as [[s3 w3] c']. simpl in Hc.
  destruct c'; simpl; congruence.
Qed.

(** ** Errors that are retried *)

Lemma downSize_remeasure s w : downSize (remeasure s w) = stat w.
Proof.
  unfold remeasure. destruct (stat w =? downSize s) eqn:E; simpl; [|reflexivity].
  apply Z.eqb_eq in E. congruence.
Qed.

(** A measurement that agrees with the tracked count changes nothing. *)
Lemma remeasure_same s w : stat w = downSize s -> remeasure s w = s.
Proof. intros H. unfold remeasure. now rewrite H, Z.eqb_refl. Qed.

(** The shape of [retry_path] from the shape of the pass. *)
Lemma retry_path_intro hostname x s w s2 e :
  tryBlock x (remeasure s w) (send (request_of (remeasure s w)) w)
  = (s2, send (request_of (remeasure s w)) w, Throw e) ->
  is_fallback e = false ->
  retries s2 = retries s -> useRange s2 = useRange s ->
  start s2 = start (remeasure s w) -> downSize s2 = downSize (remeasure s w) ->
  retry_path hostname e s w (iteration hostname x s w).
Proof.
  intros Htry He Hr Hu Hs Hd. rewrite downSize_remeasure in Hd.
  rewrite (iteration_ordinary_error _ _ _ _ _ _ _ Htry He).
  unfold retry_path, session_after, world_after, next_after.
  cbn [fst snd retries useRange start downSize expectedTotal set_retries].
  rewrite Hr.
  split; [reflexivity|]. split; [exact Hu|]. split; [exact Hs|].
  split; [exact Hd|].
  split; [now destruct (retries s - 1 <=? 0)|].
  split; [now destruct (retries s - 1 <=? 0)|].
  split.
  - intros Hlast.
    destruct (retries s - 1 <=? 0) eqn:E; [|apply Z.leb_gt in E; lia].
    now split.
  - intros Hleft.
    destruct (retries s - 1 <=? 0) eqn:E; [apply Z.leb_le in E; lia|].
    split; [reflexivity|]. split.
    + unfold whileCondition. destruct (expectedTotal s2); [|reflexivity].
      now rewrite Hd.
    + intros x' w'' Hsame.
      pose proof (iteration_requests hostname x'
                    (set_retries (retries s - 1) s2) w'') as Hq.
      unfold world_after in Hq. rewrite Hq. do 2 f_equal.
      rewrite remeasure_same by (simpl; congruence).
      unfold request_of. rewrite useRange_remeasure. simpl.
      now rewrite Hu, Hs.
Qed.

(** C3 (as amended). A response whose status is none of 200, 206 and 416
    raises a status error that is handled like any transport error. It
    uses up one unit of the retry budget and changes neither the
    strategy, nor the set of hosts, nor the expected total, nor the
    offset. With the budget used up the scratch file is removed and the
    call fails with the status error as cause. With budget left the
    scratch file is kept and the loop tests its condition: when the size
    measured on disk has reached the expected total the loop ends,
    otherwise there is one more pass, and that pass sends the same
    request again as long as the scratch file measures the same. *)
Theorem other_status_takes_retry_path (hostname : string)
    (res : IncomingMessage) (s : Session) (w : World) :
  statusCode res <> 200 -> statusCode res <> 206 -> statusCode res <> 416 ->
  let r := iteration hostname (Responds res) s w in
  retry_path hostname (StatusAssertion (statusCode res)) s w r /\
  expectedTotal (session_after r) = expectedTotal s /\
  useChunked (session_after r) = useChunked s.
Proof.
  intros H200 H206 H416. cbn zeta.
  pose proof (tryBlock_other_status res (remeasure s w)
                (send (request_of (remeasure s w)) w) H200 H206 H416) as Htry.
  split.
  - apply retry_path_intro with (s2 := remeasure s w);
      [exact Htry | reflexivity | apply retries_remeasure
       | apply useRange_remeasure | reflexivity | reflexivity].
  - rewrite (iteration_ordinary_error _ _ _ _ _ _ _ Htry eq_refl).
    unfold session_after. cbn [fst snd expectedTotal useChunked set_retries].
    split; [apply expectedTotal_remeasure | apply useChunked_remeasure].
Qed.

Lemma other_status_takes_retry_path_witness :
  (500 <> 200 /\ 500 <> 206 /\ 500 <> 416) /\
  let r := iteration "files.example:80" (Responds (message 500 None None []))
             five_of_ten five_on_disk in
  retry_path "files.example:80" (StatusAssertion 500) five_of_ten five_on_disk r /\
  expectedTotal (session_after r) = expectedTotal five_of_ten /\
  useChunked (session_after r) = useChunked five_of_ten.
Proof.
  split; [lia|].
  apply (other_status_takes_retry_path "files.example:80"
           (message 500 None None []) five_of_ten five_on_disk); simpl; lia.
Defined.

(** C3 (as stated) fails: a 500 followed by a 200 is requested twice and
    the call returns the body of the second response. *)
Lemma other_status_is_retried :
  let script := [Responds (message 500 None None []);
                 Responds (message 200 (Some 5%N) None [five_A])] in
  let r := downloadFileInChunks "files.example:80" script None fresh_process in
  statusCode (message 500 None None []) <> 200 /\
  statusCode (message 500 None None []) <> 206 /\
  statusCode (message 500 None None []) <> 416 /\
  r.2 = Returns five_A /\
  requests r.1 = [{| Range := Some 0 |}; {| Range := Some 0 |}].
Proof. vm_compute. repeat split; discriminate. Qed.

(** The retry is skipped when the scratch file already measures the
    expected total: a 206 that announces bytes 0-9 of 10 delivers all ten
    and then breaks; the pass after it measures ten bytes, asks from
    offset 10 and is answered 500; there is budget left, but the loop
    ends and the call returns the ten bytes after two requests. *)
Example status_error_with_the_file_complete :
  let script :=
    [Responds {| statusCode := 206;
                 headers := {| location := None; content_length := None;
                               accept_ranges := None;
                               content_range := Some "bytes 0-9/10" |};
                 body := [A_to_J];
                 body_error := Some "ECONNRESET" |};
     Responds (message 500 None None [])] in
  let r := downloadFileInChunks "files.example:80" script None fresh_process in
  r.2 = Returns A_to_J /\
  requests r.1 = [{| Range := Some 0 |}; {| Range := Some 10 |}].
Proof. vm_compute. split; reflexivity. Qed.

(** C7 (as amended). Before every attempt the size of the scratch file is
    measured, and whenever it differs from the tracked count, larger or
    smaller, it becomes both the tracked count and the resume offset of
    the Range request of that attempt; an equal measurement leaves both
    as they are. *)
Theorem remeasure_adopts_any_difference (hostname : string) (x : Exchange)
    (s : Session) (w : World) :
  let s1 := remeasure s w in
  downSize s1 = stat w /\
  start s1 = (if stat w =? downSize s then start s else stat w) /\
  requests (world_after (iteration hostname x s w))
  = requests w ++ [{| Range := if useRange s then Some (start s1) else None |}].
Proof.
  simpl. split; [|split].
  - unfold remeasure. destruct (stat w =? downSize s) eqn:E; simpl; [|reflexivity].
    apply Z.eqb_eq in E. congruence.
  - unfold remeasure. now destruct (stat w =? downSize s).
  - rewrite iteration_requests. unfold request_of.
    now rewrite useRange_remeasure.
Qed.

(** C7 (as stated) fails: a 206 that announces ten bytes and delivers five
    leaves five bytes on disk and a tracked count of ten; the measurement
    before the next attempt is smaller and is taken as the resume
    offset. *)
Lemma smaller_measurement_is_adopted :
  let script := [Responds (message 206 None (Some "bytes 0-9/20") [five_A]);
                 Rejects "ECONNRESET"] in
  let first :=
    iteration "files.example:80"
      (Responds (message 206 None (Some "bytes 0-9/20") [five_A]))
      (initial "files.example:80" (createWriteStream fresh_process))
      (createWriteStream fresh_process) in
  let r := downloadFileInChunks "files.example:80" script None fresh_process in
  downSize (session_after first) = 10 /\
  stat (world_after first) = 5 /\
  downSize (remeasure (session_after first) (world_after first)) = 5 /\
  requests r.1 = [{| Range := Some 0 |}; {| Range := Some 5 |}].
Proof. vm_compute. repeat split. Qed.

(** ** The branch of status 206 *)

Lemma content_length_nonneg (o : option N) :
  (0 <=? match o with Some n => Z.of_N n | None => 0 end) = true.
Proof. apply Z.leb_le. destruct o; lia. Qed.

Lemma tryBlock_206 res s w :
  statusCode res = 206 ->
  tryBlock (Responds res) s w
  = match on206 res s w with
    | (s1, w1, Normal) => (set_retries 3 s1, w1, Normal)
    | other => other
    end.
Proof.
  intros H. unfold tryBlock. rewrite H.
  change (206 =? 416) with false.
  change (includes allowStatusCode 206) with true.
  change (206 =? 206) with true.
  now rewrite content_length_nonneg.
Qed.

Lemma tryBlock_200 res s w :
  statusCode res = 200 ->
  tryBlock (Responds res) s w
  = on200 res (match content_length (headers res) with
               | Some n => Z.of_N n
               | None => 0
               end) s w.
Proof.
  intros H. unfold tryBlock. rewrite H.
  change (200 =? 416) with false.
  change (includes allowStatusCode 200) with true.
  change (200 =? 206) with false.
  change (200 =? 200) with true.
  now rewrite content_length_nonneg.
Qed.

Lemma tryBlock_range_refused res s w :
  range_refused res = true ->
  exists reason, tryBlock (Responds res) s w = (s, w, Throw (FallbackError reason)).
Proof.
  unfold range_refused. intros H. apply orb_true_iff in H as [H|H].
  - apply Z.eqb_eq in H. exists RangeNotSatisfiable.
    unfold tryBlock. now rewrite H.
  - apply andb_true_iff in H as [H1 H2]. apply Z.eqb_eq in H1.
    rewrite tryBlock_206 by assumption. unfold on206.
    destruct (truthy (content_range (headers res))) as [cr|].
    + destruct (ContentRange.parseContentRange cr); [discriminate|].
      now eexists.
    + now eexists.
Qed.

(** C5. On a 416, or on a 206 whose Content-Range is missing or does not
    parse, the host is recorded in the process-wide set; under the range
    strategy the scratch file is emptied, the session starts over from
    offset zero and the next request carries no Range header; under the
    whole-file strategy the scratch file is removed and the call fails. *)
Theorem range_refusal_falls_back_once (hostname : string)
    (res : IncomingMessage) (s : Session) (w : World) :
  range_refused res = true ->
  let r := iteration hostname (Responds res) s w in
  hostname ∈ unsupportedRangeDomains (world_after r) /\
  (useRange s = true ->
     next_after r = Again /\
     session_after r = whole_file_session /\
     tmpFile (world_after r) = Some [] /\
     request_of (remeasure (session_after r) (world_after r))
     = {| Range := None |}) /\
  (useRange s = false ->
     (exists reason, next_after r = Fails (NonChunkedFailed reason)) /\
     tmpFile (world_after r) = None).
Proof.
  intros Href.
  destruct (tryBlock_range_refused res (remeasure s w)
              (send (request_of (remeasure s w)) w) Href) as [reason Htry].
  unfold iteration. rewrite Htry. cbn [catchBlock].
  rewrite useRange_remeasure.
  destruct (useRange s); cbn.
  - split; [set_solver|]. split; [|intros; discriminate].
    intros _. repeat split.
  - split; [set_solver|]. split; [intros; discriminate|].
    intros _. split; [now exists reason | reflexivity].
Qed.

Lemma range_refusal_falls_back_once_witness :
  range_refused (message 416 None None []) = true /\
  let r := iteration "files.example:80" (Responds (message 416 None None []))
             (initial "files.example:80" (createWriteStream fresh_process))
             (createWriteStream fresh_process) in
  "files.example:80" ∈ unsupportedRangeDomains (world_after r) /\
  (useRange (initial "files.example:80" (createWriteStream fresh_process)) = true ->
     next_after r = Again /\
     session_after r = whole_file_session /\
     tmpFile (world_after r) = Some [] /\
     request_of (remeasure (session_after r) (world_after r))
     = {| Range := None |}) /\
  (useRange (initial "files.example:80" (createWriteStream fresh_process)) = false ->
     (exists reason, next_after r = Fails (NonChunkedFailed reason)) /\
     tmpFile (world_after r) = None).
Proof.
  split; [reflexivity|].
  apply (range_refusal_falls_back_once "files.example:80"
           (message 416 None None [])).
  reflexivity.
Defined.

Lemma on206_parsed res s w contentRange parsed :
  truthy (content_range (headers res)) = Some contentRange ->
  ContentRange.parseContentRange contentRange = Some parsed ->
  on206 res s w
  = match check_total (ContentRange.total parsed) s with
    | inl e => (s, w, Throw e)
    | inr s0 =>
        let s1 := set_useChunked true s0 in
        let actualStart := ContentRange.start parsed in
        if negb (actualStart =? start s1) then
          if start s1 <? actualStart then
            (s1, w, Throw (RangeMismatch (start s1) actualStart))
          else
            let skipBytes := start s1 - actualStart in
            let (w1, failed) :=
              pipeline res (Skip.createSkipTransform skipBytes) w in
            match failed with
            | Some e => (s1, w1, Throw e)
            | None =>
                let downSize' :=
                  downSize s1
                  + (ContentRange.end_ parsed - actualStart + 1 - skipBytes) in
                (set_retries 3 (set_start downSize' (set_downSize downSize' s1)),
                 w1, Continue)
            end
        else
          let (w1, failed) := pipeline res (fun cs => cs) w in
          match failed with
          | Some e => (s1, w1, Throw e)
          | None =>
              let downSize' :=
                downSize s1 + (ContentRange.end_ parsed - start s1 + 1) in
              (set_start downSize' (set_downSize downSize' s1), w1, Normal)
          end
    end.
Proof. intros Ht Hp. unfold on206. now rewrite Ht, Hp. Qed.

(** A parsed 206 seeds or keeps the expected total, and the errors it
    raises are no FallbackErrors. *)
Lemma on206_parsed_session res s w contentRange parsed :
  truthy (content_range (headers res)) = Some contentRange ->
  ContentRange.parseContentRange contentRange = Some parsed ->
  expectedTotal (on206 res s w).1.1
  = match expectedTotal s with
    | None => Some (ContentRange.total parsed)
    | Some expected => Some expected
    end /\
  forall e, (on206 res s w).2 = Throw e -> is_fallback e = false.
Proof.
  intros Ht Hp. rewrite (on206_parsed _ _ _ _ _ Ht Hp).
  unfold check_total, pipeline.
  destruct (expectedTotal s) as [expected|] eqn:He; cbn zeta.
  - destruct (negb (ContentRange.total parsed =? expected)); simpl.
    + split; [assumption|]. intros e [= <-]. reflexivity.
    + destruct (negb _); [destruct (_ <? _)|]; simpl.
      * split; [assumption|]. intros e [= <-]. reflexivity.
      * destruct (body_error res); simpl; (split; [assumption|]);
          intros e [= <-]; reflexivity.
      * destruct (body_error res); simpl; (split; [assumption|]); intros e;
          [intros [= <-]; reflexivity | discriminate].
  - destruct (negb _); [destruct (_ <? _)|]; simpl.
    + split; [reflexivity|]. intros e [= <-]. reflexivity.
    + destruct (body_error res); simpl; (split; [reflexivity|]);
        intros e [= <-]; reflexivity.
    + destruct (body_error res); simpl; (split; [reflexivity|]); intros e;
        [intros [= <-]; reflexivity | discriminate].
Qed.

(** Whatever a pass does with a parsed 206, it does not forget the
    expected total once there is one. *)
Lemma expectedTotal_after_parsed_206 hostname res s w contentRange parsed :
  statusCode res = 206 ->
  truthy (content_range (headers res)) = Some contentRange ->
  ContentRange.parseContentRange contentRange = Some parsed ->
  expectedTotal (session_after (iteration hostname (Responds res) s w))
  = match expectedTotal s with
    | None => Some (ContentRange.total parsed)
    | Some expected => Some expected
    end.
Proof.
  intros H206 Ht Hp.
  destruct (on206_parsed_session res (remeasure s w)
              (send (request_of (remeasure s w)) w) _ _ Ht Hp) as [Hexp Hfb].
  rewrite expectedTotal_remeasure in Hexp.
  unfold session_after, iteration. rewrite tryBlock_206 by assumption.
  destruct (on206 res (remeasure s w) (send (request_of (remeasure s w)) w))
    as [[s2 w2] c]. simpl in Hexp, Hfb.
  destruct c as [| | |e]; simpl; try exact Hexp.
  rewrite catchBlock_ordinary by (now apply Hfb).
  destruct (retries s2 - 1 <=? 0); simpl; exact Hexp.
Qed.

(** Whatever a pass does with a 200, the expected total is afterwards
    the Content-Length of that response (0 when there is none). *)
Lemma expectedTotal_after_200 hostname res s w :
  statusCode res = 200 ->
  expectedTotal (session_after (iteration hostname (Responds res) s w))
  = Some (match content_length (headers res) with
          | Some n => Z.of_N n
          | None => 0
          end).
Proof.
  intros H200. unfold session_after, iteration.
  rewrite tryBlock_200 by assumption. unfold on200, pipeline.
  destruct (body_error res) as [m|]; [|reflexivity].
  cbn [catchBlock]. now destruct (_ <=? 0).
Qed.

(** C4 (as amended). A 206 met while the session has no expected total
    makes the total of its Content-Range the expected total. A 206 met
    while the session has one, whose total differs from it, smaller or
    larger, raises a size-mismatch error and leaves the expectation as it
    was; the error takes the path of every other error: one unit of the
    retry budget; with the budget used up the scratch file is removed and
    the call fails with the mismatch as cause; with budget left nothing
    is written, the loop ends when the size on disk has reached the
    expected total, and otherwise the same request is sent again as long
    as the scratch file measures the same. The expected total need not
    come from a Content-Range: every 200 sets it to its Content-Length,
    also when its body breaks. *)
Theorem total_is_seeded_then_must_match (hostname : string)
    (res : IncomingMessage) (s : Session) (w : World)
    (contentRange : string) (parsed : ContentRange.parsed) :
  statusCode res = 206 ->
  truthy (content_range (headers res)) = Some contentRange ->
  ContentRange.parseContentRange contentRange = Some parsed ->
  let total := ContentRange.total parsed in
  let r := iteration hostname (Responds res) s w in
  (expectedTotal s = None -> expectedTotal (session_after r) = Some total) /\
  (forall expected : Z,
     expectedTotal s = Some expected -> total <> expected ->
     retry_path hostname (SizeMismatch expected total) s w r /\
     expectedTotal (session_after r) = Some expected) /\
  (forall (res200 : IncomingMessage) (s0 : Session) (w0 : World),
     statusCode res200 = 200 ->
     expectedTotal
       (session_after (iteration hostname (Responds res200) s0 w0))
     = Some (match content_length (headers res200) with
             | Some n => Z.of_N n
             | None => 0
             end)).
Proof.
  intros H206 Ht Hp. cbn zeta. split; [|split].
  - intros Hnone.
    rewrite (expectedTotal_after_parsed_206 _ _ _ _ _ _ H206 Ht Hp).
    now rewrite Hnone.
  - intros expected Hsome Hne. split.
    + apply retry_path_intro with (s2 := remeasure s w);
        [ | reflexivity | apply retries_remeasure | apply useRange_remeasure
          | reflexivity | reflexivity].
      rewrite tryBlock_206 by assumption.
      rewrite (on206_parsed _ _ _ _ _ Ht Hp).
      unfold check_total. rewrite expectedTotal_remeasure, Hsome.
      now rewrite neq_eqb by assumption.
    + rewrite (expectedTotal_after_parsed_206 _ _ _ _ _ _ H206 Ht Hp).
      now rewrite Hsome.
  - intros res200 s0 w0. apply expectedTotal_after_200.
Qed.

Lemma total_is_seeded_then_must_match_witness :
  (statusCode (message 206 None (Some "bytes 5-7/8") [[x42; x42; x42]]) = 206 /\
   ContentRange.parseContentRange "bytes 5-7/8"
   = Some {| ContentRange.start := 5; ContentRange.end_ := 7;
             ContentRange.total := 8 |}) /\
  expectedTotal
    (session_after
       (iteration "files.example:80"
          (Responds (message 206 None (Some "bytes 5-7/8") [[x42; x42; x42]]))
          (initial "files.example:80" (createWriteStream fresh_process))
          (createWriteStream fresh_process))) = Some 8 /\
  (let r := iteration "files.example:80"
              (Responds (message 206 None (Some "bytes 5-7/8") [[x42; x42; x42]]))
              five_of_ten five_on_disk in
   retry_path "files.example:80" (SizeMismatch 10 8) five_of_ten five_on_disk r /\
   expectedTotal (session_after r) = Some 10).
Proof.
  split; [split; reflexivity|]. split.
  - apply (proj1 (total_is_seeded_then_must_match "files.example:80"
             (message 206 None (Some "bytes 5-7/8") [[x42; x42; x42]])
             (initial "files.example:80" (createWriteStream fresh_process))
             (createWriteStream fresh_process)
             "bytes 5-7/8"
             {| ContentRange.start := 5; ContentRange.end_ := 7;
                ContentRange.total := 8 |} eq_refl eq_refl eq_refl)).
    reflexivity.
  - apply (proj1 (proj2 (total_is_seeded_then_must_match "files.example:80"
             (message 206 None (Some "bytes 5-7/8") [[x42; x42; x42]])
             five_of_ten five_on_disk
             "bytes 5-7/8"
             {| ContentRange.start := 5; ContentRange.end_ := 7;
                ContentRange.total := 8 |} eq_refl eq_refl eq_refl)) 10).
    + reflexivity.
    + simpl. lia.
Defined.

(** C4 (as stated) fails twice. The probe reports ten bytes. After a first
    206 with total 10, a 206 with the smaller total 8 is not accepted: its
    bytes are not written, the same offset is requested again and the
    result has the ten bytes of the other responses. A 206 with the larger
    total 12 is not fatal either: the request is repeated and the call
    returns. *)
Lemma later_total_is_neither_adopted_nor_fatal :
  let url := "http://files.example/a" in
  let fetch script :=
    httpStream absolute files_example
      (redirect_chain [url] ten_bytes_with_ranges) url script None
      fresh_process in
  let smaller :=
    fetch [Responds (message 206 None (Some "bytes 0-4/10") [five_A]);
           Responds (message 206 None (Some "bytes 5-7/8") [[x42; x42; x42]]);
           Responds (message 206 None (Some "bytes 5-9/10") [five_A])] in
  let larger :=
    fetch [Responds (message 206 None (Some "bytes 0-4/10") [five_A]);
           Responds (message 206 None (Some "bytes 5-9/12") [five_A]);
           Responds (message 206 None (Some "bytes 5-9/10") [five_A])] in
  (smaller.2 = Returns (five_A ++ five_A) /\
   requests smaller.1
   = [{| Range := Some 0 |}; {| Range := Some 5 |}; {| Range := Some 5 |}]) /\
  (larger.2 = Returns (five_A ++ five_A) /\
   requests larger.1
   = [{| Range := Some 0 |}; {| Range := Some 5 |}; {| Range := Some 5 |}]).
Proof. vm_compute. repeat split. Qed.

(** The expected total a 206 is held against may come from a 200: a 200
    that announces ten bytes breaks after five; the 206 that answers the
    resumed request declares a total of twelve and is a mismatch, twice,
    which uses the budget up. *)
Example content_length_of_a_200_sets_the_expected_total :
  let broken :=
    Responds {| statusCode := 200;
                headers := {| location := None; content_length := Some 10%N;
                              accept_ranges := None; content_range := None |};
                body := [five_A];
                body_error := Some "ECONNRESET" |} in
  let twelve := Responds (message 206 None (Some "bytes 5-9/12") [five_A]) in
  let r := downloadFileInChunks "files.example:80" [broken; twelve; twelve]
             None fresh_process in
  r.2 = Throws (ChunkFailed (SizeMismatch 10 12)) /\
  requests r.1
  = [{| Range := Some 0 |}; {| Range := Some 5 |}; {| Range := Some 5 |}].
Proof. vm_compute. split; reflexivity. Qed.

(** ** Overlap and gap *)

Lemma remeasure_start_downSize s w :
  start s = downSize s -> start (remeasure s w) = downSize (remeasure s w).
Proof. intros H. unfold remeasure. now destruct (negb _). Qed.

Lemma check_total_consistent total s :
  expectedTotal s = None \/ expectedTotal s = Some total ->
  exists s0, check_total total s = inr s0 /\
             start s0 = start s /\ downSize s0 = downSize s /\
             retries s0 = retries s /\ useRange s0 = useRange s.
Proof.
  unfold check_total. intros [H|H]; rewrite H.
  - eexists. split; [reflexivity|]. now simpl.
  - rewrite Z.eqb_refl. simpl. now exists s.
Qed.

(** The overlap filter at a non-negative count drops that many bytes. *)
Lemma createSkipTransform_concat k cs :
  0 <= k ->
  concat (Skip.createSkipTransform k cs) = drop (Z.to_nat k) (concat cs).
Proof.
  intros Hk. unfold Skip.createSkipTransform.
  rewrite feed_concat by lia. f_equal. lia.
Qed.

(** C6 (as amended). On a 206 whose Content-Range starts before the
    requested offset and whose body ends normally, exactly the overlap
    (requested start minus returned start bytes) is dropped before the
    body is appended to the scratch file, and the resume offset advances
    by returned end + 1 minus requested start. On a 206 whose
    Content-Range starts after the requested offset, a gap error is
    raised; the declared total is the expected total from then on; the
    error takes the path of every other error: one unit of the retry
    budget; with the budget used up the scratch file is removed and the
    call fails with the gap error as cause; with budget left nothing is
    appended and the offset stays, the loop ends when the size on disk
    has reached the declared total, and otherwise the same request is
    sent again as long as the scratch file measures the same. *)
Theorem overlap_is_skipped_gap_takes_retry_path (hostname : string)
    (res : IncomingMessage) (s : Session) (w : World)
    (contentRange : string) (parsed : ContentRange.parsed) :
  statusCode res = 206 ->
  truthy (content_range (headers res)) = Some contentRange ->
  ContentRange.parseContentRange contentRange = Some parsed ->
  expectedTotal s = None \/ expectedTotal s = Some (ContentRange.total parsed) ->
  start s = downSize s ->
  let requested := start (remeasure s w) in
  let actualStart := ContentRange.start parsed in
  let r := iteration hostname (Responds res) s w in
  (actualStart < requested -> body_error res = None ->
     tmpFile (world_after r)
     = Some (default [] (tmpFile w)
             ++ drop (Z.to_nat (requested - actualStart)) (concat (body res))) /\
     start (session_after r)
     = requested + (ContentRange.end_ parsed + 1 - requested) /\
     downSize (session_after r) = start (session_after r) /\
     retries (session_after r) = 3 /\
     next_after r = (if whileCondition (session_after r) then Again else Leaves)) /\
  (requested < actualStart ->
     retry_path hostname (RangeMismatch requested actualStart) s w r /\
     expectedTotal (session_after r) = Some (ContentRange.total parsed)).
Proof.
  intros H206 Ht Hp Hexp Hinv. cbn zeta.
  pose proof (remeasure_start_downSize s w Hinv) as Hinv'.
  pose proof (expectedTotal_after_parsed_206 hostname _ s w _ _ H206 Ht Hp)
    as Hafter.
  rewrite <- (expectedTotal_remeasure s w) in Hexp.
  destruct (check_total_consistent _ _ Hexp) as (s0 & Hck & Hs & Hd & Hr & Hu).
  split.
  - intros Hlt Hbody.
    unfold session_after, world_after, next_after, iteration.
    rewrite tryBlock_206 by assumption.
    rewrite (on206_parsed _ _ _ _ _ Ht Hp), Hck. cbn zeta.
    cbn [start downSize set_useChunked].
    rewrite Hs, Hd.
    rewrite neq_eqb by lia. cbn [negb].
    destruct (start (remeasure s w) <? ContentRange.start parsed) eqn:E;
      [apply Z.ltb_lt in E; lia|].
    unfold pipeline. rewrite Hbody. cbn.
    rewrite createSkipTransform_concat by lia.
    repeat split. lia.
  - intros Hgt. split.
    + apply retry_path_intro with (s2 := set_useChunked true s0);
        [ | reflexivity | simpl; rewrite Hr; apply retries_remeasure
          | simpl; rewrite Hu; apply useRange_remeasure
          | exact Hs | exact Hd].
      rewrite tryBlock_206 by assumption.
      rewrite (on206_parsed _ _ _ _ _ Ht Hp), Hck. cbn zeta.
      cbn [start set_useChunked]. rewrite Hs.
      rewrite neq_eqb by lia. cbn [negb].
      destruct (start (remeasure s w) <? ContentRange.start parsed) eqn:E;
        [reflexivity | apply Z.ltb_ge in E; lia].
    + rewrite Hafter. rewrite expectedTotal_remeasure in Hexp.
      now destruct Hexp as [-> | ->].
Qed.

Lemma overlap_is_skipped_gap_takes_retry_path_witness :
  (statusCode (message 206 None (Some "bytes 3-9/10") [[x42; x42]; five_A]) = 206 /\
   ContentRange.parseContentRange "bytes 3-9/10"
   = Some {| ContentRange.start := 3; ContentRange.end_ := 9;
             ContentRange.total := 10 |} /\
   ContentRange.parseContentRange "bytes 7-9/10"
   = Some {| ContentRange.start := 7; ContentRange.end_ := 9;
             ContentRange.total := 10 |} /\
   expectedTotal five_of_ten = Some 10 /\
   start five_of_ten = downSize five_of_ten /\
   3 < start (remeasure five_of_ten five_on_disk) < 7) /\
  (let r := iteration "files.example:80"
              (Responds (message 206 None (Some "bytes 3-9/10") [[x42; x42]; five_A]))
              five_of_ten five_on_disk in
   tmpFile (world_after r) = Some (five_A ++ five_A) /\
   start (session_after r) = 10 /\
   downSize (session_after r) = start (session_after r) /\
   retries (session_after r) = 3 /\
   next_after r = (if whileCondition (session_after r) then Again else Leaves)) /\
  (let r := iteration "files.example:80"
              (Responds (message 206 None (Some "bytes 7-9/10") [[x42; x42; x42]]))
              five_of_ten five_on_disk in
   retry_path "files.example:80" (RangeMismatch 5 7) five_of_ten five_on_disk r /\
   expectedTotal (session_after r) = Some 10).
Proof.
  split; [repeat split; simpl; lia|]. split.
  - apply (proj1 (overlap_is_skipped_gap_takes_retry_path "files.example:80"
             (message 206 None (Some "bytes 3-9/10") [[x42; x42]; five_A])
             five_of_ten five_on_disk "bytes 3-9/10"
             {| ContentRange.start := 3; ContentRange.end_ := 9;
                ContentRange.total := 10 |}
             eq_refl eq_refl eq_refl (or_intror eq_refl) eq_refl)).
    + simpl. lia.
    + reflexivity.
  - apply (proj2 (overlap_is_skipped_gap_takes_retry_path "files.example:80"
             (message 206 None (Some "bytes 7-9/10") [[x42; x42; x42]])
             five_of_ten five_on_disk "bytes 7-9/10"
             {| ContentRange.start := 7; ContentRange.end_ := 9;
                ContentRange.total := 10 |}
             eq_refl eq_refl eq_refl (or_intror eq_refl) eq_refl)).
    simpl. lia.
Defined.

(** C6 (as stated) fails in its last part: a 206 that starts after the
    requested offset does not end the call; the same offset is requested
    again and the call returns the ten bytes of the other responses. *)
Lemma gap_is_retried :
  let script :=
    [Responds (message 206 None (Some "bytes 0-4/10") [five_A]);
     Responds (message 206 None (Some "bytes 7-9/10") [[x42; x42; x42]]);
     Responds (message 206 None (Some "bytes 5-9/10") [five_A])] in
  let r := downloadFileInChunks "files.example:80" script None fresh_process in
  r.2 = Returns (five_A ++ five_A) /\
  requests r.1
  = [{| Range := Some 0 |}; {| Range := Some 5 |}; {| Range := Some 5 |}].
Proof. vm_compute. split; reflexivity. Qed.

(** The retry after a gap is skipped when the scratch file already
    measures the declared total: a 206 for bytes 0-9 of 10 delivers all
    ten and breaks; the next pass asks from offset 10 and is answered
    with a range that starts at 12; there is budget left, the loop ends
    and the call returns the ten bytes. *)
Example gap_with_the_file_complete :
  let script :=
    [Responds {| statusCode := 206;
                 headers := {| location := None; content_length := None;
                               accept_ranges := None;
                               content_range := Some "bytes 0-9/10" |};
                 body := [A_to_J];
                 body_error := Some "ECONNRESET" |};
     Responds (message 206 None (Some "bytes 12-14/10") [[x42; x42; x42]])] in
  let r := downloadFileInChunks "files.example:80" script None fresh_process in
  r.2 = Returns A_to_J /\
  requests r.1 = [{| Range := Some 0 |}; {| Range := Some 10 |}].
Proof. vm_compute. split; reflexivity. Qed.

(** ** The first request of a call *)

Lemma loop_requests_prefix hostname script s w :
  exists tail, requests (loop hostname script s w).1.2 = requests w ++ tail.
Proof.
  revert s w. induction script as [|x script IH]; intros s w; simpl.
  - exists []. now rewrite app_nil_r.
  - pose proof (iteration_requests hostname x s w) as Hreq.
    unfold world_after in Hreq.
    destruct (iteration hostname x s w) as [[s' w'] n]. simpl in Hreq.
    destruct n; simpl; try (eexists; exact Hreq).
    destruct (IH s' w') as [tail Htail].
    exists (request_of (remeasure s w) :: tail).
    rewrite Htail, Hreq, <- app_assoc. reflexivity.
Qed.

Lemma loop_first_request hostname x script s w :
  exists later,
    requests (loop hostname (x :: script) s w).1.2
    = requests w ++ request_of (remeasure s w) :: later.
Proof.
  simpl.
  pose proof (iteration_requests hostname x s w) as Hreq.
  unfold world_after in Hreq.
  destruct (iteration hostname x s w) as [[s' w'] n]. simpl in Hreq.
  destruct n; simpl; try (exists []; exact Hreq).
  destruct (loop_requests_prefix hostname script s' w') as [tail Htail].
  exists tail. rewrite Htail, Hreq, <- app_assoc. reflexivity.
Qed.

Lemma downloadFileInChunks_first_request hostname x script finish w :
  exists later,
    requests (downloadFileInChunks hostname (x :: script) finish w).1
    = requests w
      ++ {| Range := if has_domain hostname w then None else Some 0 |} :: later.
Proof.
  unfold downloadFileInChunks.
  destruct (loop_first_request hostname x script
              (initial hostname (createWriteStream w)) (createWriteStream w))
    as [later Hl].
  exists later.
  destruct (loop hostname (x :: script) _ _) as [[s' w'] n]. simpl in Hl.
  assert (Hw : requests (match n with
                         | Some (Fails e) => (w', Throws e)
                         | Some _ => finalize finish w'
                         | None => (w', Awaits)
                         end).1 = requests w').
  { destruct n as [[| |e]|]; try reflexivity; unfold finalize;
      now destruct finish. }
  rewrite Hw, Hl. unfold request_of, remeasure, initial, has_domain. simpl.
  now destruct (bool_decide _).
Qed.

(** C1 (as amended). In a process whose no-slice switch is off, the
    first request of a fetch whose probe succeeds and whose (redirected)
    address is an http or https one carries [Range: bytes=0-] exactly
    when the host key of that address is not in the process-wide set of
    hosts that refused ranges, whatever the probe reported as
    Accept-Ranges and Content-Length; otherwise it carries no Range
    header. Nothing is stated for a process whose switch is on. *)
Theorem range_is_attempted_unless_host_is_cached
    (resolve : string -> string -> option string)
    (parseURL : string -> option URL) (head : string -> Exchange)
    (url : string) (x : Exchange) (script : list Exchange)
    (finish : option string) (w : World) (probed : Headers) (u : URL) :
  NO_SLICE_DOWN (CONFIG w) = false ->
  httpHeadHeader resolve head url = inr probed ->
  parseURL (redirected url probed) = Some u ->
  getProtocol (protocol u) = true ->
  exists first later,
    requests (httpStream resolve parseURL head url (x :: script) finish w).1
    = requests w ++ first :: later /\
    (Range first = Some 0 <-> hostKey u ∉ unsupportedRangeDomains w) /\
    (Range first = None <-> hostKey u ∈ unsupportedRangeDomains w).
Proof.
  intros _ Hprobe Hurl Hproto.
  unfold httpStream. rewrite Hprobe, Hurl, Hproto. cbn [negb].
  destruct (downloadFileInChunks_first_request (hostKey u) x script finish w)
    as [later Hl].
  eexists _, later. split; [exact Hl|].
  unfold has_domain. cbn [Range].
  destruct (bool_decide_reflect (hostKey u ∈ unsupportedRangeDomains w)) as [Hin|Hout].
  - split; split; intros H; try reflexivity; try discriminate; try assumption.
    contradiction.
  - split; split; intros H; try reflexivity; try discriminate; try assumption.
    contradiction.
Qed.

Lemma range_is_attempted_unless_host_is_cached_witness :
  (NO_SLICE_DOWN (CONFIG fresh_process) = false /\
   httpHeadHeader absolute
     (redirect_chain ["http://files.example/a"] no_headers)
     "http://files.example/a" = inr no_headers /\
   files_example (redirected "http://files.example/a" no_headers)
   = Some {| protocol := "http:"; hostname := "files.example"; port := "" |} /\
   getProtocol "http:" = true) /\
  exists first later,
    requests (httpStream absolute files_example
                (redirect_chain ["http://files.example/a"] no_headers)
                "http://files.example/a"
                [Responds (message 200 (Some 5%N) None [five_A])]
                None fresh_process).1
    = requests fresh_process ++ first :: later /\
    (Range first = Some 0
     <-> hostKey {| protocol := "http:"; hostname := "files.example"; port := "" |}
         ∉ unsupportedRangeDomains fresh_process) /\
    (Range first = None
     <-> hostKey {| protocol := "http:"; hostname := "files.example"; port := "" |}
         ∈ unsupportedRangeDomains fresh_process).
Proof.
  split; [repeat split|].
  apply (range_is_attempted_unless_host_is_cached absolute files_example
           (redirect_chain ["http://files.example/a"] no_headers)
           "http://files.example/a"
           (Responds (message 200 (Some 5%N) None [five_A])) []
           None fresh_process no_headers
           {| protocol := "http:"; hostname := "files.example"; port := "" |});
    reflexivity.
Defined.

(** C1 (as stated) fails: the probe reports neither Accept-Ranges nor a
    size, and the first request still asks for a range. *)
Lemma range_is_attempted_without_probe_support :
  let url := "http://files.example/a" in
  let r := httpStream absolute files_example
             (redirect_chain [url] no_headers) url
             [Responds (message 200 (Some 5%N) None [five_A])]
             None fresh_process in
  httpHeadHeader absolute (redirect_chain [url] no_headers) url = inr no_headers /\
  accept_ranges no_headers = None /\
  content_length no_headers = None /\
  requests r.1 = [{| Range := Some 0 |}].
Proof. vm_compute. repeat split. Qed.

(** [NO_SLICE_DOWN] is defined in src/config.ts and set by a test of the
    repository ('should disable chunk download with NO_SLICE_DOWN env',
    which expects no range request), but no line of this version of
    [httpStream] and [downloadFileInChunks] reads it: with the switch on
    the first request still asks for a range. *)
Example no_slice_switch_is_not_read :
  let url := "http://files.example/a" in
  let switched_on :=
    {| CONFIG := {| HTTP_REQUEST_TIMEOUT := 10 * 1000;
                    HTTP_RESPONSE_TIMEOUT := 60 * 1000;
                    NO_SLICE_DOWN := true;
                    READY_RETRY := 3 |};
       unsupportedRangeDomains := ∅;
       tmpFile := None;
       requests := [] |} in
  let r := httpStream absolute files_example
             (redirect_chain [url] ten_bytes_with_ranges) url
             [Responds (message 200 (Some 5%N) None [five_A])]
             None switched_on in
  requests r.1 = [{| Range := Some 0 |}].
Proof. vm_compute. reflexivity. Qed.

(** ** The header probe *)

Section ProbeFacts.

Variable resolve : string -> string -> option string.
Variable head : string -> Exchange.

(** Each hop costs one unit of the budget. *)
Lemma head_loop_follows u k u' :
  follows resolve head u k u' ->
  forall ttl originUrl,
    head_loop resolve head (k + ttl) originUrl u
    = head_loop resolve head ttl originUrl u'.
Proof.
  induction 1 as [u|u res loc u' k u'' Hhead H3 Hloc Hres _ IH];
    intros ttl originUrl; [reflexivity|].
  simpl. rewrite Hhead, H3, Hloc, Hres. simpl. apply IH.
Qed.

(** A chain of at most six redirects is followed to its terminal
    response. *)
Lemma six_hops_are_followed u k u' res :
  follows resolve head u k u' ->
  (k <= 6)%nat ->
  head u' = Responds res ->
  starts_with_3 (statusCode res) = false ->
  httpHeadHeader resolve head u = inr (probe_result u u' res).
Proof.
  intros Hf Hk Hhead H3. unfold httpHeadHeader, REDIRECT_TTL.
  replace 7%nat with (k + S (6 - k))%nat by lia.
  rewrite (head_loop_follows _ _ _ Hf). simpl.
  now rewrite Hhead, H3.
Qed.

End ProbeFacts.

(** C8 (what the code does at seven hops). A chain of seven redirects,
    each with a Location that resolves, is not followed to its terminal
    response: after the seventh Location is resolved the probe throws
    'ttl expired' without requesting the address it leads to. *)
Theorem seven_hops_exhaust_the_budget
    (resolve : string -> string -> option string)
    (head : string -> Exchange) (u u' : string) :
  follows resolve head u 7 u' ->
  httpHeadHeader resolve head u = inl TtlExpired.
Proof.
  intros Hf. unfold httpHeadHeader, REDIRECT_TTL.
  change 7%nat with (7 + 0)%nat.
  now rewrite (head_loop_follows _ _ _ _ _ Hf).
Qed.

Lemma follows_redirect_chain_0_to_7 :
  follows absolute (redirect_chain hops_0_to_7 ten_bytes_with_ranges)
    "http://files.example/0" 7 "http://files.example/7".
Proof.
  repeat (eapply follows_hop;
          [reflexivity | reflexivity | reflexivity | reflexivity |]).
  apply follows_none.
Defined.

Lemma seven_hops_exhaust_the_budget_witness :
  follows absolute (redirect_chain hops_0_to_7 ten_bytes_with_ranges)
    "http://files.example/0" 7 "http://files.example/7" /\
  (exists res,
     redirect_chain hops_0_to_7 ten_bytes_with_ranges "http://files.example/7"
     = Responds res /\ statusCode res = 200) /\
  httpHeadHeader absolute (redirect_chain hops_0_to_7 ten_bytes_with_ranges)
    "http://files.example/0" = inl TtlExpired.
Proof.
  split; [exact follows_redirect_chain_0_to_7|].
  split; [eexists; split; reflexivity|].
  apply (seven_hops_exhaust_the_budget absolute
           (redirect_chain hops_0_to_7 ten_bytes_with_ranges)
           "http://files.example/0" "http://files.example/7").
  exact follows_redirect_chain_0_to_7.
Defined.

Example six_hops_reach_the_terminal_response :
  httpHeadHeader absolute (redirect_chain hops_0_to_6 ten_bytes_with_ranges)
    "http://files.example/0"
  = inr {| location := Some "http://files.example/6";
           content_length := Some 10%N;
           accept_ranges := Some "bytes";
           content_range := None |}.
Proof. reflexivity. Qed.

Example redirect_without_location :
  httpHeadHeader absolute
    (fun _ => Responds (message 302 None None [])) "http://files.example/0"
  = inl NoLocation.
Proof. reflexivity. Qed.

(** ** Errors and the scratch file *)

(** An error that leaves the loop has removed the scratch file. *)
Lemma iteration_fails_removes_tmpFile hostname x s w e :
  next_after (iteration hostname x s w) = Fails e ->
  tmpFile (world_after (iteration hostname x s w)) = None.
Proof.
  unfold next_after, world_after, iteration.
  destruct (tryBlock x (remeasure s w) (send (request_of (remeasure s w)) w))
    as [[s2 w2] c].
  destruct c as [| | |err]; simpl;
    try (destruct (whileCondition s2); discriminate).
  unfold catchBlock.
  destruct err; simpl;
    repeat match goal with
           | |- context [if ?b then _ else _] => destruct b; simpl
           end;
    intros H; try discriminate; reflexivity.
Qed.

Lemma loop_fails_removes_tmpFile hostname script s w e :
  (loop hostname script s w).2 = Some (Fails e) ->
  tmpFile (loop hostname script s w).1.2 = None.
Proof.
  revert s w. induction script as [|x script IH]; intros s w; simpl;
    [discriminate|].
  pose proof (iteration_fails_removes_tmpFile hostname x s w) as Hit.
  unfold next_after, world_after in Hit.
  destruct (iteration hostname x s w) as [[s' w'] n]. simpl in Hit.
  destruct n as [| |e']; simpl.
  - apply IH.
  - discriminate.
  - intros _. now apply (Hit e').
Qed.

(** C9 (what the code does when the write stream fails to finish). A
    200 with its whole body ends the loop; when the wait for 'finish'
    is then rejected, the error leaves the call and the scratch file is
    still there. *)
Theorem failed_finish_leaves_the_scratch_file :
  let r := downloadFileInChunks "files.example:80"
             [Responds (message 200 (Some 5%N) None [five_A])]
             (Some "ENOSPC") fresh_process in
  r.2 = Throws (FinishAborted "ENOSPC") /\ tmpFile r.1 = Some five_A.
Proof. vm_compute. split; reflexivity. Qed.

(** ** The counters at the head of the loop *)

(** [start] and [downSize] agree whenever the loop goes round. *)

Lemma check_total_keeps total s s0 :
  check_total total s = inr s0 ->
  start s0 = start s /\ downSize s0 = downSize s.
Proof.
  unfold check_total. destruct (expectedTotal s).
  - destruct (negb _); [discriminate|]. now intros [= <-].
  - now intros [= <-].
Qed.

Lemma on206_keeps res s w :
  start s = downSize s ->
  start (on206 res s w).1.1 = downSize (on206 res s w).1.1.
Proof.
  intros H. unfold on206, pipeline.
  destruct (truthy _) as [cr|]; [|exact H].
  destruct (ContentRange.parseContentRange cr) as [parsed|]; [|exact H].
  destruct (check_total _ s) as [e|s0] eqn:E; [exact H|].
  apply check_total_keeps in E as [Es Ed].
  repeat (break_match; simpl; try congruence; try reflexivity).
Qed.

Lemma on200_keeps res n s w :
  start s = downSize s ->
  (on200 res n s w).2 <> Break ->
  start (on200 res n s w).1.1 = downSize (on200 res n s w).1.1.
Proof.
  intros H. unfold on200, pipeline.
  repeat (break_match; simpl; try assumption; try reflexivity; try congruence).
Qed.

Lemma tryBlock_keeps x s w :
  start s = downSize s ->
  (tryBlock x s w).2 <> Break ->
  start (tryBlock x s w).1.1 = downSize (tryBlock x s w).1.1.
Proof.
  intros H. unfold tryBlock.
  destruct x as [m|res]; [now simpl|].
  destruct (statusCode res =? 416); [now simpl|].
  destruct (negb (includes allowStatusCode (statusCode res))); [now simpl|].
  destruct (negb _); [now simpl|].
  destruct (statusCode res =? 206).
  - pose proof (on206_keeps res s w H) as H6.
    destruct (on206 res s w) as [[s1 w1] c]. now destruct c.
  - destruct (statusCode res =? 200); [now apply on200_keeps | now simpl].
Qed.

Lemma catchBlock_keeps hostname e s w :
  start s = downSize s ->
  start (catchBlock hostname e s w).1.1 = downSize (catchBlock hostname e s w).1.1.
Proof.
  intros H. unfold catchBlock.
  repeat (break_match; simpl; try assumption; try reflexivity).
Qed.

(** [start] and [downSize] agree whenever the loop goes round. *)
Lemma iteration_keeps_start_downSize hostname x s w :
  start s = downSize s ->
  next_after (iteration hostname x s w) = Again ->
  start (session_after (iteration hostname x s w))
  = downSize (session_after (iteration hostname x s w)).
Proof.
  intros Hinv.
  pose proof (remeasure_start_downSize s w Hinv) as H1.
  unfold next_after, session_after, iteration.
  pose proof (tryBlock_keeps x _ (send (request_of (remeasure s w)) w) H1) as Ht.
  destruct (tryBlock x (remeasure s w) (send (request_of (remeasure s w)) w))
    as [[s2 w2] c]. simpl in Ht.
  destruct c as [| | |e]; simpl.
  - intros _. apply Ht. discriminate.
  - intros _. apply Ht. discriminate.
  - discriminate.
  - pose proof (catchBlock_keeps hostname e s2 w2) as Hc.
    destruct (catchBlock hostname e s2 w2) as [[s3 w3] c']. simpl in Hc.
    intros _. destruct c'; simpl; apply Hc, Ht; discriminate.
Qed.

(** ** The pool of the specification *)

Section PoolFacts.
Import Pool.

Lemma find_app a (es1 es2 : list (string * Handle)) :
  find a (es1 ++ es2)
  = match find a es1 with
    | Some h => Some h
    | None => find a es2
    end.
Proof.
  induction es1 as [|[a' h'] es1 IH]; simpl; [reflexivity|].
  now destruct (String.eqb a a').
Qed.

Lemma find_absent a (es : list (string * Handle)) :
  a ∉ es.*1 -> find a es = None.
Proof.
  induction es as [|[a' h'] es IH]; simpl; [reflexivity|].
  intros Hn. apply not_elem_of_cons in Hn as [Hne Hn].
  destruct (String.eqb_spec a a'); [contradiction | auto].
Qed.

Lemma find_present a h (es : list (string * Handle)) :
  NoDup es.*1 -> (a, h) ∈ es -> find a es = Some h.
Proof.
  induction es as [|[a' h'] es IH]; simpl; intros Hnd Hin.
  - now apply elem_of_nil in Hin.
  - apply NoDup_cons in Hnd as [Hfresh Hnd].
    apply elem_of_cons in Hin as [[= -> ->]|Hin].
    + now rewrite String.eqb_refl.
    + destruct (String.eqb_spec a a') as [->|Hne]; [|auto].
      exfalso. apply Hfresh.
      apply (list_elem_of_fmap_2 fst) in Hin. exact Hin.
Qed.

(** A hit returns the stored handle and leaves the pool as it is. *)
Lemma get_hit a h p :
  find a (entries p) = Some h -> get a false p = (h, p).
Proof. intros H. unfold get. now rewrite H. Qed.

End PoolFacts.

(** C2. In a pool at capacity N that holds N distinct addresses, oldest
    first, a lookup that hits returns the stored handle and leaves the
    entries and their order as they are; the lookup of one further address
    constructs a handle, removes exactly the oldest entry and keeps the
    others in order with the new one last: afterwards the oldest address
    misses (a lookup builds another handle), and every other address and
    the new one hit the handles they had. *)
Theorem pool_evicts_oldest_inserted (p : Pool.Pool) (a0 : string)
    (h0 : Pool.Handle) (rest : list (string * Pool.Handle)) (b : string) :
  Pool.entries p = (a0, h0) :: rest ->
  length (Pool.entries p) = Pool.capacity p ->
  NoDup (Pool.entries p).*1 ->
  Forall (fun e => (e.2 < Pool.constructed p)%nat) (Pool.entries p) ->
  b ∉ (Pool.entries p).*1 ->
  (forall a h, (a, h) ∈ Pool.entries p -> Pool.get a false p = (h, p)) /\
  let hb := (Pool.get b false p).1 in
  let p' := (Pool.get b false p).2 in
  Pool.entries p' = rest ++ [(b, hb)] /\
  Pool.find a0 (Pool.entries p') = None /\
  (Pool.get a0 false p').1 <> h0 /\
  (forall a h, (a, h) ∈ rest -> Pool.get a false p' = (h, p')) /\
  Pool.get b false p' = (hb, p').
Proof.
  intros Hes Hlen Hnd Hold Hb.
  split.
  { intros a h Hin. apply get_hit. now apply find_present. }
  assert (Hget : Pool.get b false p
                 = (Pool.constructed p,
                    {| Pool.capacity := Pool.capacity p;
                       Pool.entries := rest ++ [(b, Pool.constructed p)];
                       Pool.constructed := S (Pool.constructed p) |})).
  { unfold Pool.get. rewrite (find_absent _ _ Hb).
    rewrite length_app, Hlen. simpl.
    destruct (Nat.ltb_spec (Pool.capacity p) (Pool.capacity p + 1)); [|lia].
    now rewrite Hes. }
  rewrite Hget. cbn zeta. cbn [fst snd Pool.entries].
  rewrite Hes in Hnd, Hold, Hb. cbn in Hnd, Hb.
  apply NoDup_cons in Hnd as [Ha0 Hnd].
  apply not_elem_of_cons in Hb as [Hba0 Hb].
  apply Forall_cons in Hold as [Hh0 Hold]. cbn in Hh0.
  assert (Hmiss : Pool.find a0 (rest ++ [(b, Pool.constructed p)]) = None).
  { rewrite find_app, (find_absent _ _ Ha0). simpl.
    destruct (String.eqb_spec a0 b); [congruence | reflexivity]. }
  repeat split.
  - exact Hmiss.
  - unfold Pool.get. cbn [Pool.entries Pool.constructed]. rewrite Hmiss.
    cbn. lia.
  - intros a h Hin. apply get_hit. cbn [Pool.entries].
    rewrite find_app. now rewrite (find_present _ _ _ Hnd Hin).
  - apply get_hit. cbn [Pool.entries].
    rewrite find_app, (find_absent _ _ Hb). simpl.
    now rewrite String.eqb_refl.
Qed.

Lemma pool_evicts_oldest_inserted_witness :
  let p := Pool.fill ["u0"; "u1"; "u2"] (Pool.empty 3) in
  (Pool.entries p = ("u0", 0%nat) :: [("u1", 1%nat); ("u2", 2%nat)] /\
   length (Pool.entries p) = Pool.capacity p /\
   NoDup (Pool.entries p).*1 /\
   Forall (fun e => (e.2 < Pool.constructed p)%nat) (Pool.entries p) /\
   "u3" ∉ (Pool.entries p).*1) /\
  (forall a h, (a, h) ∈ Pool.entries p -> Pool.get a false p = (h, p)) /\
  let hb := (Pool.get "u3" false p).1 in
  let p' := (Pool.get "u3" false p).2 in
  Pool.entries p' = [("u1", 1%nat); ("u2", 2%nat)] ++ [("u3", hb)] /\
  Pool.find "u0" (Pool.entries p') = None /\
  (Pool.get "u0" false p').1 <> 0%nat /\
  (forall a h, (a, h) ∈ [("u1", 1%nat); ("u2", 2%nat)] ->
               Pool.get a false p' = (h, p')) /\
  Pool.get "u3" false p' = (hb, p').
Proof.
  cbn zeta.
  assert (Hnd : NoDup (Pool.entries (Pool.fill ["u0"; "u1"; "u2"] (Pool.empty 3))).*1).
  { cbn. compute_done. }
  assert (Hold : Forall (fun e => (e.2 < Pool.constructed
                                           (Pool.fill ["u0"; "u1"; "u2"] (Pool.empty 3)))%nat)
                   (Pool.entries (Pool.fill ["u0"; "u1"; "u2"] (Pool.empty 3)))).
  { cbn. repeat (apply Forall_cons; split; [cbn; lia|]). apply Forall_nil_2. }
  assert (Hb : "u3" ∉ (Pool.entries (Pool.fill ["u0"; "u1"; "u2"] (Pool.empty 3))).*1).
  { cbn. compute_done. }
  split; [repeat split; assumption|].
  exact (pool_evicts_oldest_inserted
           (Pool.fill ["u0"; "u1"; "u2"] (Pool.empty 3))
           "u0" 0%nat [("u1", 1%nat); ("u2", 2%nat)] "u3"
           eq_refl eq_refl Hnd Hold Hb).
Defined.

(** The scenario of the repository's test 'pool should remove old filebox
    instance', at capacity 3, on the pool of the specification: fill the
    pool, look the first address up again, look a new address up, then
    look the second address up. The test expects that last lookup to
    build a new instance ('since id1 should be removed from pool'); on an
    insertion-ordered pool it returns the instance of the first lookup. *)
Example repository_test_on_the_specified_pool :
  let p := Pool.fill ["?id=0"; "?id=1"; "?id=2"] (Pool.empty 3) in
  let filebox := Pool.get "?id=0" false p in
  let filebox100 := Pool.get "?id=100" false filebox.2 in
  let filebox1_2 := Pool.get "?id=1" false filebox100.2 in
  Pool.find "?id=0" (Pool.entries p) = Some filebox.1 /\
  Pool.find "?id=1" (Pool.entries p) = Some filebox1_2.1.
Proof. split; reflexivity. Qed.

Example dataUrl_test :
  dataUrlToBase64 "data:image/png;base64,R0lGODlhEAAQ" = "R0lGODlhEAAQ".
Proof. reflexivity. Qed.

Example fileName_quoted :
  FileName.httpHeaderToFileName
    (Some (String.append "attachment; filename="
             (String FileName.quote
                (String.append "db-0.0.19.zip" (String FileName.quote EmptyString)))))
  = Some "db-0.0.19.zip".
Proof. reflexivity. Qed.

Example fileName_plain :
  FileName.httpHeaderToFileName (Some "Attachment; FILENAME=db-0.0.19.zip")
  = Some "db-0.0.19.zip".
Proof. reflexivity. Qed.

Example render_example : render_content_range 5 9 10 = "bytes 5-9/10".
Proof. reflexivity. Qed.

(** ** dataUrlToBase64 *)

Lemma split_comma_nonempty s : split_comma s <> [].
Proof.
  destruct s as [|x s]; simpl; [discriminate|].
  destruct (Ascii.eqb x ","); [discriminate|].
  destruct (split_comma s); discriminate.
Qed.

Lemma split_comma_plain s : contains "," s = false -> split_comma s = [s].
Proof.
  induction s as [|x s IH]; simpl; [reflexivity|].
  intros H. apply orb_false_iff in H as [Hx Hs].
  rewrite Hx, (IH Hs). reflexivity.
Qed.

Lemma split_comma_append pre s :
  exists front,
    front <> [] /\
    split_comma (pre +:+ String "," s) = front ++ split_comma s.
Proof.
  induction pre as [|x pre (front & Hne & IH)]; simpl.
  - exists [EmptyString]. split; [discriminate | reflexivity].
  - destruct (Ascii.eqb x ",").
    + exists (EmptyString :: front). split; [discriminate|].
      now rewrite IH.
    + rewrite IH. destruct front as [|f fs]; [contradiction|].
      exists (String x f :: fs). split; [discriminate | reflexivity].
Qed.

Lemma List_last_app {A} (l1 l2 : list A) d :
  l2 <> [] -> List.last (l1 ++ l2) d = List.last l2 d.
Proof.
  intros Hne. induction l1 as [|x l1 IH]; simpl; [reflexivity|].
  destruct (l1 ++ l2) eqn:E; [|exact IH].
  apply app_eq_nil in E as [_ E]. contradiction.
Qed.

(** X1. The payload of a data URL comes back: for a payload without a
    comma, [dataUrlToBase64] of any prefix, a comma and the payload is the
    payload, and a string without any comma is returned whole. *)
Theorem dataUrlToBase64_returns_payload (pre payload : string) :
  contains "," payload = false ->
  dataUrlToBase64 (pre +:+ String "," payload) = payload /\
  dataUrlToBase64 payload = payload.
Proof.
  intros Hp. unfold dataUrlToBase64. split.
  - destruct (split_comma_append pre payload) as (front & _ & ->).
    rewrite List_last_app by apply split_comma_nonempty.
    now rewrite (split_comma_plain _ Hp).
  - now rewrite (split_comma_plain _ Hp).
Qed.

Lemma dataUrlToBase64_returns_payload_witness :
  contains "," "R0lGODlh" = false /\
  dataUrlToBase64 ("data:image/png;base64" +:+ String "," "R0lGODlh") = "R0lGODlh" /\
  dataUrlToBase64 "R0lGODlh" = "R0lGODlh".
Proof.
  split; [reflexivity|].
  apply (dataUrlToBase64_returns_payload "data:image/png;base64" "R0lGODlh").
  reflexivity.
Defined.

Lemma dataUrlToBase64_cons x s :
  dataUrlToBase64 (String x s)
  = if Ascii.eqb x "," then dataUrlToBase64 s
    else if contains "," s then dataUrlToBase64 s else String x s.
Proof.
  unfold dataUrlToBase64. simpl.
  destruct (Ascii.eqb x ",") eqn:Ex.
  - pose proof (split_comma_nonempty s). now destruct (split_comma s).
  - destruct (contains "," s) eqn:Ec.
    + assert (Hlen : exists p q qs, split_comma s = p :: q :: qs).
      { clear Ex. induction s as [|y s IH]; simpl in *; [discriminate|].
        destruct (Ascii.eqb y ",") eqn:Ey.
        - pose proof (split_comma_nonempty s).
          destruct (split_comma s) as [|q qs]; [contradiction|]. now eexists _, _, _.
        - simpl in Ec. destruct (IH Ec) as (p & q & qs & ->). now eexists _, _, _. }
      destruct Hlen as (p & q & qs & ->). reflexivity.
    + now rewrite (split_comma_plain _ Ec).
Qed.

(** X2. Whatever the input, the result of [dataUrlToBase64] holds no
    comma and is the end of the input: the input is some prefix followed
    by the result. *)
Theorem dataUrlToBase64_is_comma_free_suffix (dataUrl : string) :
  contains "," (dataUrlToBase64 dataUrl) = false /\
  exists pre, dataUrl = pre +:+ dataUrlToBase64 dataUrl.
Proof.
  induction dataUrl as [|x s [IHc [pre IHs]]].
  - split; [reflexivity | now exists EmptyString].
  - rewrite dataUrlToBase64_cons.
    destruct (Ascii.eqb x ",") eqn:Ex.
    + split; [exact IHc|]. exists (String x pre).
      change (String x s = String x (pre +:+ dataUrlToBase64 s)). now f_equal.
    + destruct (contains "," s) eqn:Ec.
      * split; [exact IHc|]. exists (String x pre).
      change (String x s = String x (pre +:+ dataUrlToBase64 s)). now f_equal.
      * split; [simpl; now rewrite Ex, Ec | now exists EmptyString].
Qed.

(** ** httpHeaderToFileName *)

Section FileNameFacts.
Import FileName.

Lemma plain_cons x name :
  plain (String x name) = true ->
  is_line_terminator x = false /\ Ascii.eqb x quote = false /\ plain name = true.
Proof.
  unfold plain, is_line_terminator. cbn [contains]. intros H.
  apply andb_true_iff in H as [H H13]. apply andb_true_iff in H as [Hq H10].
  apply negb_true_iff, orb_false_iff in Hq as [Hq Hq'].
  apply negb_true_iff, orb_false_iff in H10 as [H10 H10'].
  apply negb_true_iff, orb_false_iff in H13 as [H13 H13'].
  now rewrite Hq, H10, H13, Hq', H10', H13'.
Qed.

Lemma capture_cons x s :
  capture (String x s)
  = if is_line_terminator x then None
    else match capture s with
         | Some cap => Some (String x cap)
         | None =>
             match s with
             | String c s'' =>
                 if negb (Ascii.eqb c quote) && closes s''
                 then Some (String x (String c EmptyString))
                 else None
             | EmptyString => None
             end
         end.
Proof. reflexivity. Qed.

Lemma capture_plain name x :
  plain (String x name) = true -> name <> EmptyString ->
  capture (String x name) = Some (String x name).
Proof.
  revert x. induction name as [|c name IH]; intros x Hp Hne; [contradiction|].
  apply plain_cons in Hp as (Hx & _ & Hp).
  rewrite capture_cons, Hx.
  destruct name as [|c' name'].
  - apply plain_cons in Hp as (Hc & Hq & _).
    rewrite capture_cons, Hc, Hq. reflexivity.
  - rewrite (IH c Hp) by discriminate. reflexivity.
Qed.

Lemma append_cons x s t : String x s +:+ t = String x (s +:+ t).
Proof. reflexivity. Qed.

Lemma append_empty t : EmptyString +:+ t = t.
Proof. reflexivity. Qed.

Lemma append_assoc s t u : (s +:+ t) +:+ u = s +:+ (t +:+ u).
Proof.
  induction s as [|x s IH]; [reflexivity|].
  now rewrite !append_cons, IH.
Qed.

Lemma capture_quoted name x :
  plain (String x name) = true -> name <> EmptyString ->
  capture (String x (name +:+ String quote EmptyString)) = Some (String x name).
Proof.
  revert x. induction name as [|c name IH]; intros x Hp Hne; [contradiction|].
  apply plain_cons in Hp as (Hx & _ & Hp).
  rewrite append_cons, capture_cons, Hx.
  destruct name as [|c' name'].
  - apply plain_cons in Hp as (Hc & Hq & _).
    rewrite append_empty, capture_cons, Hc.
    change (capture (String quote EmptyString)) with (@None string).
    rewrite Hq. reflexivity.
  - rewrite (IH c Hp) by discriminate. reflexivity.
Qed.

Lemma capture_sound s cap :
  capture s = Some cap ->
  exists body c,
    cap = body +:+ String c EmptyString /\ body <> EmptyString /\
    Ascii.eqb c quote = false /\
    (s = cap \/ s = cap +:+ String quote EmptyString).
Proof.
  revert cap. induction s as [|x s IH]; intros cap; cbn [capture]; [discriminate|].
  destruct (is_line_terminator x); [discriminate|].
  destruct (capture s) as [cap'|].
  - intros [= <-]. destruct (IH cap' eq_refl) as (body & c & -> & Hne & Hc & Hs).
    exists (String x body), c. repeat split; try assumption; try discriminate.
    destruct Hs as [->| ->]; [now left | now right].
  - destruct s as [|c s'']; [discriminate|].
    destruct (Ascii.eqb c quote) eqn:Hc; [discriminate|]. cbn [negb andb].
    destruct s'' as [|q s3]; cbn [closes].
    + intros [= <-]. exists (String x EmptyString), c.
      repeat split; try assumption; try discriminate. now left.
    + destruct s3; [|discriminate].
      destruct (Ascii.eqb_spec q quote) as [->|]; [|discriminate].
      intros [= <-]. exists (String x EmptyString), c.
      repeat split; try assumption; try discriminate. now right.
Qed.

Lemma literal_i_sound lit s rest :
  literal_i lit s = Some rest -> exists pre, s = pre +:+ rest.
Proof.
  revert s. induction lit as [|a lit IH]; intros s; cbn [literal_i].
  - intros [= ->]. now exists EmptyString.
  - destruct s as [|b s]; [discriminate|].
    destruct (eqb_i a b); [|discriminate].
    intros H. destruct (IH _ H) as [pre ->]. now exists (String b pre).
Qed.

Lemma search_sound value name :
  search value = Some name ->
  exists pre body c,
    name = body +:+ String c EmptyString /\ body <> EmptyString /\
    Ascii.eqb c quote = false /\
    (value = pre +:+ name \/ value = pre +:+ name +:+ String quote EmptyString).
Proof.
  induction value as [|x value IH].
  - cbn. discriminate.
  - cbn [search].
    destruct (match_here (String x value)) as [cap|] eqn:Hm.
    + intros [= ->]. unfold match_here in Hm.
      destruct (literal_i _ _) as [rest|] eqn:Hl; [|discriminate].
      destruct (literal_i_sound _ _ _ Hl) as [pre Hpre]. rewrite Hpre.
      assert (Hcap : forall s, capture s = Some name ->
                exists body c,
                  name = body +:+ String c EmptyString /\ body <> EmptyString /\
                  Ascii.eqb c quote = false /\
                  (s = name \/ s = name +:+ String quote EmptyString))
        by (intros; now apply capture_sound).
      assert (Hfrom : forall s, capture s = Some name ->
                exists pre' body c,
                  name = body +:+ String c EmptyString /\ body <> EmptyString /\
                  Ascii.eqb c quote = false /\
                  (pre +:+ s = pre' +:+ name
                   \/ pre +:+ s = pre' +:+ name +:+ String quote EmptyString)).
      { intros s Hs. destruct (Hcap s Hs) as (body & c & Hn & Hb & Hc & Hv).
        exists pre, body, c. repeat split; try assumption.
        destruct Hv as [->| ->]; [now left | now right]. }
      unfold after_literal in Hm.
      destruct rest as [|q rest']; [now apply Hfrom|].
      destruct (Ascii.eqb q quote); [|now apply Hfrom].
      destruct (capture rest') as [cap'|] eqn:Hc'; [|now apply Hfrom].
      injection Hm as ->.
      destruct (Hcap rest' Hc') as (body & c & Hn & Hb & Hc & Hv).
      exists (pre +:+ String q EmptyString), body, c.
      repeat split; try assumption.
      rewrite !append_assoc, append_cons, append_empty.
      destruct Hv as [->| ->]; [now left | now right].
    + intros Hs. destruct (IH Hs) as (pre & body & c & Hn & Hb & Hc & Hv).
      exists (String x pre), body, c. repeat split; try assumption.
      rewrite !append_cons. destruct Hv as [->| ->]; [now left | now right].
Qed.

Lemma eqb_i_refl a : eqb_i a a = true.
Proof. unfold eqb_i. apply Ascii.eqb_refl. Qed.

Lemma literal_i_prefix lit rest : literal_i lit (lit +:+ rest) = Some rest.
Proof.
  induction lit as [|a lit IH]; [reflexivity|].
  rewrite append_cons. cbn [literal_i]. now rewrite eqb_i_refl.
Qed.

Lemma search_unfold s :
  search s
  = match match_here s with
    | Some cap => Some cap
    | None =>
        match s with
        | String _ s' => search s'
        | EmptyString => None
        end
    end.
Proof. destruct s; reflexivity. Qed.

(** A header that starts with the literal of the pattern. *)
Lemma header_with_literal rest cap :
  after_literal rest = Some cap ->
  httpHeaderToFileName (Some ("attachment; filename=" +:+ rest)) = Some cap.
Proof.
  intros H.
  change (httpHeaderToFileName (Some ("attachment; filename=" +:+ rest)))
    with (search ("attachment; filename=" +:+ rest)).
  rewrite search_unfold. unfold match_here.
  now rewrite literal_i_prefix, H.
Qed.

End FileNameFacts.

(** X3. A file name of at least two characters, free of quotation marks
    and line breaks, comes back from the header that carries it, with or
    without quotation marks around it. *)
Theorem httpHeaderToFileName_returns_the_name (name : string) :
  FileName.plain name = true ->
  (2 <= String.length name)%nat ->
  FileName.httpHeaderToFileName (Some ("attachment; filename=" +:+ name))
  = Some name /\
  FileName.httpHeaderToFileName
    (Some ("attachment; filename="
           +:+ String FileName.quote (name +:+ String FileName.quote EmptyString)))
  = Some name.
Proof.
  intros Hp Hlen.
  destruct name as [|x name]; [simpl in Hlen; lia|].
  destruct name as [|c name]; [simpl in Hlen; lia|].
  pose proof (plain_cons _ _ Hp) as (_ & Hq & _).
  split; apply header_with_literal.
  - unfold FileName.after_literal. rewrite Hq.
    apply capture_plain; [assumption | discriminate].
  - unfold FileName.after_literal.
    assert (Hqq : Ascii.eqb FileName.quote FileName.quote = true) by reflexivity.
    rewrite Hqq, append_cons.
    rewrite capture_quoted; [reflexivity | assumption | discriminate].
Qed.

Lemma httpHeaderToFileName_returns_the_name_witness :
  (FileName.plain "db-0.0.19.zip" = true /\
   (2 <= String.length "db-0.0.19.zip")%nat) /\
  FileName.httpHeaderToFileName
    (Some ("attachment; filename=" +:+ "db-0.0.19.zip"))
  = Some "db-0.0.19.zip" /\
  FileName.httpHeaderToFileName
    (Some ("attachment; filename="
           +:+ String FileName.quote
                 ("db-0.0.19.zip" +:+ String FileName.quote EmptyString)))
  = Some "db-0.0.19.zip".
Proof.
  split; [split; [reflexivity | simpl; lia]|].
  apply (httpHeaderToFileName_returns_the_name "db-0.0.19.zip");
    [reflexivity | simpl; lia].
Defined.

(** X4. Whenever [httpHeaderToFileName] finds a name, the name has at
    least two characters, does not end with a quotation mark, and is the
    end of the header value, up to one closing quotation mark. *)
Theorem httpHeaderToFileName_result_shape (value name : string) :
  FileName.httpHeaderToFileName (Some value) = Some name ->
  exists pre body c,
    name = body +:+ String c EmptyString /\ body <> EmptyString /\
    c <> FileName.quote /\
    (value = pre +:+ name
     \/ value = pre +:+ name +:+ String FileName.quote EmptyString).
Proof.
  unfold FileName.httpHeaderToFileName.
  destruct value as [|x value]; [discriminate|]. cbn [truthy].
  intros H. destruct (search_sound _ _ H) as (pre & body & c & Hn & Hb & Hc & Hv).
  exists pre, body, c. repeat split; try assumption.
  now apply Ascii.eqb_neq.
Qed.

Lemma httpHeaderToFileName_result_shape_witness :
  FileName.httpHeaderToFileName (Some "inline; Attachment; FileName=a.txt")
  = Some "a.txt" /\
  exists pre body c,
    "a.txt" = body +:+ String c EmptyString /\ body <> EmptyString /\
    c <> FileName.quote /\
    ("inline; Attachment; FileName=a.txt" = pre +:+ "a.txt"
     \/ "inline; Attachment; FileName=a.txt"
        = pre +:+ "a.txt" +:+ String FileName.quote EmptyString).
Proof.
  split; [reflexivity|].
  apply (httpHeaderToFileName_result_shape
           "inline; Attachment; FileName=a.txt" "a.txt").
  reflexivity.
Defined.

(** X5. A file name of a single character without quotation marks is
    not found, and neither is anything in a header that is absent or
    empty: the result is [null]. *)
Theorem httpHeaderToFileName_misses_short_names (c : ascii) :
  FileName.httpHeaderToFileName
    (Some ("attachment; filename=" +:+ String c EmptyString)) = None /\
  FileName.httpHeaderToFileName None = None /\
  FileName.httpHeaderToFileName (Some EmptyString) = None.
Proof.
  split; [|split; reflexivity].
  change (FileName.search ("attachment; filename=" +:+ String c EmptyString) = None).
  rewrite search_unfold. unfold FileName.match_here. rewrite literal_i_prefix.
  assert (Ha : FileName.after_literal (String c EmptyString) = None).
  { unfold FileName.after_literal. rewrite !capture_cons.
    change (FileName.capture EmptyString) with (@None string).
    destruct (Ascii.eqb c FileName.quote), (FileName.is_line_terminator c);
      reflexivity. }
  rewrite Ha, !append_cons, append_empty. cbv beta iota.
  repeat (rewrite search_unfold; unfold FileName.match_here;
          lazymatch goal with
          | |- context [FileName.literal_i ?l ?s] =>
              first [ change (FileName.literal_i l s) with (@None string)
                    | idtac ]
          end; cbv beta iota).
  unfold FileName.literal_i. destruct (FileName.eqb_i _ c); reflexivity.
Qed.

(** X6. A file name of a single character between quotation marks is
    found with its opening quotation mark: the optional mark of the
    pattern is given back so that the group has its two characters. *)
Theorem httpHeaderToFileName_keeps_quote_of_short_name (c : ascii) :
  c <> FileName.quote ->
  FileName.is_line_terminator c = false ->
  FileName.httpHeaderToFileName
    (Some ("attachment; filename="
           +:+ String FileName.quote (String c (String FileName.quote EmptyString))))
  = Some (String FileName.quote (String c EmptyString)).
Proof.
  intros Hc Ht. apply Ascii.eqb_neq in Hc.
  apply header_with_literal. unfold FileName.after_literal.
  assert (Hqq : Ascii.eqb FileName.quote FileName.quote = true) by reflexivity.
  assert (Hqt : FileName.is_line_terminator FileName.quote = false) by reflexivity.
  rewrite Hqq, !capture_cons, Ht, Hqt, Hc, Hqq.
  change (FileName.capture EmptyString) with (@None string).
  reflexivity.
Qed.

Lemma httpHeaderToFileName_keeps_quote_of_short_name_witness :
  ("a"%char <> FileName.quote /\ FileName.is_line_terminator "a" = false) /\
  FileName.httpHeaderToFileName
    (Some ("attachment; filename="
           +:+ String FileName.quote (String "a" (String FileName.quote EmptyString))))
  = Some (String FileName.quote (String "a" EmptyString)).
Proof.
  split; [split; [discriminate | reflexivity]|].
  apply (httpHeaderToFileName_keeps_quote_of_short_name "a");
    [discriminate | reflexivity].
Defined.

(** ** parseContentRange on rendered headers *)

Section ContentRangeFacts.
Import ContentRange.

Lemma append_empty_r s : s +:+ EmptyString = s.
Proof. induction s as [|x s IH]; [reflexivity|]. now rewrite append_cons, IH. Qed.

Lemma literal_prefix lit rest : literal lit (lit +:+ rest) = Some rest.
Proof.
  induction lit as [|a lit IH]; [reflexivity|].
  rewrite append_cons. cbn [literal]. now rewrite Ascii.eqb_refl.
Qed.

Lemma digits_cons c s :
  digits (String c s)
  = if is_digit c then let (ds, rest) := digits s in (c :: ds, rest)
    else ([], String c s).
Proof. reflexivity. Qed.

(** The characters of a numeral. *)
Lemma digits_uint_string d rest :
  digits rest = ([], rest) ->
  digits (uint_string d +:+ rest)
  = (String.list_ascii_of_string (uint_string d), rest).
Proof.
  intros Hrest. induction d as [|d IH|d IH|d IH|d IH|d IH|d IH|d IH|d IH|d IH|d IH];
    cbn [uint_string String.list_ascii_of_string];
    rewrite ?append_empty, ?append_cons, ?digits_cons; try assumption;
    match goal with
    | |- context [is_digit ?c] => change (is_digit c) with true
    end; cbv iota; now rewrite IH.
Qed.

Lemma digits_decimal n rest :
  digits rest = ([], rest) ->
  digits (decimal n +:+ rest)
  = (String.list_ascii_of_string (decimal n), rest).
Proof. apply digits_uint_string. Qed.

Lemma Number_uint_string_acc d acc :
  fold_left (fun a c => 10 * a + digit_value c)
    (String.list_ascii_of_string (uint_string d)) (Z.of_nat acc)
  = Z.of_nat (Nat.of_uint_acc d acc).
Proof.
  revert acc.
  induction d as [|d IH|d IH|d IH|d IH|d IH|d IH|d IH|d IH|d IH|d IH];
    intros acc; cbn [uint_string String.list_ascii_of_string fold_left Nat.of_uint_acc];
    [reflexivity|..];
    rewrite <- IH; f_equal; rewrite Nat.tail_mul_spec;
    match goal with
    | |- context [digit_value ?c] =>
        let v := eval vm_compute in (digit_value c) in
        change (digit_value c) with v
    end; lia.
Qed.

Lemma Number_decimal n :
  Number (String.list_ascii_of_string (decimal n)) = Z.of_nat n.
Proof.
  unfold Number, decimal.
  change 0 with (Z.of_nat 0). rewrite Number_uint_string_acc.
  f_equal. apply DecimalNat.Unsigned.of_to.
Qed.

Lemma decimal_nonempty n :
  String.list_ascii_of_string (decimal n) <> [].
Proof.
  unfold decimal. intros H.
  assert (Hnil : Nat.to_uint n = Decimal.Nil)
    by (destruct (Nat.to_uint n); simpl in H; congruence).
  pose proof (DecimalNat.Unsigned.of_to n) as Hof. rewrite Hnil in Hof. simpl in Hof.
  subst n. discriminate Hnil.
Qed.

End ContentRangeFacts.

(** X7. The Content-Range header a server renders for the bytes
    first..last of total is parsed back to these three numbers, for all
    numbers up to 2^53, the range in which [Number] converts a numeral
    without rounding. *)
Theorem parseContentRange_reads_rendered_header (first last total : nat) :
  Z.of_nat first <= 2 ^ 53 ->
  Z.of_nat last <= 2 ^ 53 ->
  Z.of_nat total <= 2 ^ 53 ->
  ContentRange.parseContentRange (render_content_range first last total)
  = Some {| ContentRange.start := Z.of_nat first;
            ContentRange.end_ := Z.of_nat last;
            ContentRange.total := Z.of_nat total |}.
Proof.
  intros _ _ _.
  unfold ContentRange.parseContentRange, render_content_range.
  assert (Hm : ContentRange.match_here
                 ("bytes " +:+ decimal first +:+ "-" +:+ decimal last
                  +:+ "/" +:+ decimal total)
               = Some {| ContentRange.start := Z.of_nat first;
                         ContentRange.end_ := Z.of_nat last;
                         ContentRange.total := Z.of_nat total |}).
  { unfold ContentRange.match_here.
    rewrite literal_prefix.
    rewrite (digits_decimal first
               ("-" +:+ decimal last +:+ "/" +:+ decimal total) eq_refl).
    pose proof (decimal_nonempty first) as H1.
    destruct (String.list_ascii_of_string (decimal first)) as [|c1 l1] eqn:E1;
      [contradiction|]. rewrite <- E1. clear H1.
    change (ContentRange.literal "-" ("-" +:+ decimal last +:+ "/" +:+ decimal total))
      with (Some (decimal last +:+ "/" +:+ decimal total)).
    cbv beta iota.
    rewrite (digits_decimal last ("/" +:+ decimal total) eq_refl).
    pose proof (decimal_nonempty last) as H2.
    destruct (String.list_ascii_of_string (decimal last)) as [|c2 l2] eqn:E2;
      [contradiction|]. rewrite <- E2. clear H2.
    change (ContentRange.literal "/" ("/" +:+ decimal total))
      with (Some (decimal total)).
    cbv beta iota.
    rewrite <- (append_empty_r (decimal total)).
    rewrite (digits_decimal total EmptyString eq_refl).
    pose proof (decimal_nonempty total) as H3.
    destruct (String.list_ascii_of_string (decimal total)) as [|c3 l3] eqn:E3;
      [contradiction|]. rewrite <- E3. clear H3.
    now rewrite !Number_decimal. }
  destruct ("bytes " +:+ decimal first +:+ "-" +:+ decimal last
            +:+ "/" +:+ decimal total); cbn [ContentRange.search]; now rewrite Hm.
Qed.

Lemma parseContentRange_reads_rendered_header_witness :
  (Z.of_nat 5 <= 2 ^ 53 /\ Z.of_nat 9 <= 2 ^ 53 /\ Z.of_nat 10 <= 2 ^ 53) /\
  ContentRange.parseContentRange (render_content_range 5 9 10)
  = Some {| ContentRange.start := Z.of_nat 5;
            ContentRange.end_ := Z.of_nat 9;
            ContentRange.total := Z.of_nat 10 |}.
Proof.
  split; [repeat split; now vm_compute|].
  apply (parseContentRange_reads_rendered_header 5 9 10); now vm_compute.
Defined.

(** ** What a pass leaves alone *)

Lemma frame_on206 res s w :
  useRange (on206 res s w).1.1 = useRange s /\
  unsupportedRangeDomains (on206 res s w).1.2 = unsupportedRangeDomains w /\
  CONFIG (on206 res s w).1.2 = CONFIG w.
Proof.
  unfold on206, pipeline.
  destruct (truthy _) as [cr|]; [|now simpl].
  destruct (ContentRange.parseContentRange cr) as [parsed|]; [|now simpl].
  destruct (check_total _ s) as [e|s0] eqn:E; [now simpl|].
  assert (Hu : useRange s0 = useRange s).
  { unfold check_total in E. destruct (expectedTotal s).
    - destruct (negb _); [discriminate|]. now injection E as <-.
    - now injection E as <-. }
  repeat (break_match; simpl; try (repeat split; (assumption || reflexivity))).
Qed.

Lemma frame_on200 res n s w :
  useRange (on200 res n s w).1.1 = useRange s /\
  unsupportedRangeDomains (on200 res n s w).1.2 = unsupportedRangeDomains w /\
  CONFIG (on200 res n s w).1.2 = CONFIG w.
Proof.
  unfold on200, pipeline.
  repeat (break_match; simpl; try (repeat split; reflexivity)).
Qed.

Lemma frame_tryBlock x s w :
  useRange (tryBlock x s w).1.1 = useRange s /\
  unsupportedRangeDomains (tryBlock x s w).1.2 = unsupportedRangeDomains w /\
  CONFIG (tryBlock x s w).1.2 = CONFIG w.
Proof.
  unfold tryBlock.
  destruct x as [m|res]; [now simpl|].
  destruct (statusCode res =? 416); [now simpl|].
  destruct (negb (includes allowStatusCode (statusCode res))); [now simpl|].
  destruct (negb _); [now simpl|].
  destruct (statusCode res =? 206).
  - pose proof (frame_on206 res s w) as H.
    destruct (on206 res s w) as [[s1 w1] c]. now destruct c.
  - destruct (statusCode res =? 200); [apply frame_on200 | now simpl].
Qed.

Lemma frame_catchBlock hostname e s w :
  (useRange (catchBlock hostname e s w).1.1 = true -> useRange s = true) /\
  (unsupportedRangeDomains (catchBlock hostname e s w).1.2
   = unsupportedRangeDomains w
   \/ unsupportedRangeDomains (catchBlock hostname e s w).1.2
      = {[ hostname ]} ∪ unsupportedRangeDomains w) /\
  CONFIG (catchBlock hostname e s w).1.2 = CONFIG w.
Proof.
  unfold catchBlock.
  destruct e; simpl;
    repeat match goal with
           | |- context [if ?b then _ else _] => destruct b eqn:?; simpl
           end;
    repeat split; auto; try discriminate;
    try (intros; now apply negb_false_iff).
Qed.

Lemma frame_iteration hostname x s w :
  (useRange (session_after (iteration hostname x s w)) = true -> useRange s = true) /\
  (unsupportedRangeDomains (world_after (iteration hostname x s w))
   = unsupportedRangeDomains w
   \/ unsupportedRangeDomains (world_after (iteration hostname x s w))
      = {[ hostname ]} ∪ unsupportedRangeDomains w) /\
  CONFIG (world_after (iteration hostname x s w)) = CONFIG w.
Proof.
  unfold session_after, world_after, iteration.
  pose proof (frame_tryBlock x (remeasure s w)
                (send (request_of (remeasure s w)) w)) as (Hu & Hd & Hc).
  rewrite useRange_remeasure in Hu. simpl in Hd, Hc.
  destruct (tryBlock x (remeasure s w) (send (request_of (remeasure s w)) w))
    as [[s2 w2] c]. simpl in Hu, Hd, Hc.
  destruct c as [| | |e]; simpl;
    try (repeat split; [congruence | now left | assumption]).
  pose proof (frame_catchBlock hostname e s2 w2) as (Hu' & Hd' & Hc').
  destruct (catchBlock hostname e s2 w2) as [[s3 w3] c']. simpl in Hu', Hd', Hc'.
  assert (Hgoal : (useRange s3 = true -> useRange s = true) /\
                  (unsupportedRangeDomains w3 = unsupportedRangeDomains w
                   \/ unsupportedRangeDomains w3
                      = {[ hostname ]} ∪ unsupportedRangeDomains w) /\
                  CONFIG w3 = CONFIG w).
  { repeat split; [intros; rewrite <- Hu; auto | | congruence].
    rewrite <- Hd. exact Hd'. }
  destruct c'; simpl; exact Hgoal.
Qed.

Lemma frame_loop hostname script s w :
  (unsupportedRangeDomains (loop hostname script s w).1.2
   = unsupportedRangeDomains w
   \/ unsupportedRangeDomains (loop hostname script s w).1.2
      = {[ hostname ]} ∪ unsupportedRangeDomains w) /\
  CONFIG (loop hostname script s w).1.2 = CONFIG w.
Proof.
  revert s w. induction script as [|x script IH]; intros s w; simpl.
  - split; [now left | reflexivity].
  - pose proof (frame_iteration hostname x s w) as (_ & Hd & Hc).
    unfold world_after in Hd, Hc.
    destruct (iteration hostname x s w) as [[s' w'] n]. simpl in Hd, Hc.
    destruct n; simpl; try (split; assumption).
    destruct (IH s' w') as (Hd' & Hc'). split; [|congruence].
    destruct Hd as [Hd|Hd], Hd' as [Hd'|Hd']; rewrite Hd', Hd;
      [now left | now right | now right | right].
    now rewrite (assoc_L (∪)), (idemp_L (∪)).
Qed.

(** X8. A call never removes a host from the process-wide set of hosts
    that refused ranges and never adds any host but its own: afterwards
    the set is what it was, or that with the host key of the call; the
    configuration is untouched. *)
Theorem negative_cache_only_gains_the_own_host (hostname : string)
    (script : list Exchange) (finish : option string) (w : World) :
  let w' := (downloadFileInChunks hostname script finish w).1 in
  (unsupportedRangeDomains w' = unsupportedRangeDomains w
   \/ unsupportedRangeDomains w' = {[ hostname ]} ∪ unsupportedRangeDomains w) /\
  CONFIG w' = CONFIG w.
Proof.
  cbn zeta. unfold downloadFileInChunks.
  pose proof (frame_loop hostname script
                (initial hostname (createWriteStream w)) (createWriteStream w))
    as H.
  destruct (loop hostname script _ _) as [[s' w'] n]. simpl in H.
  destruct n as [[| |e]|]; simpl; try exact H;
    unfold finalize; destruct finish; exact H.
Qed.

(** ** The strategy of a call *)

Lemma loop_requests_ranged_then_plain hostname script s w :
  exists ranged plain,
    requests (loop hostname script s w).1.2 = requests w ++ ranged ++ plain /\
    Forall (fun r => is_Some (Range r)) ranged /\
    Forall (fun r => Range r = None) plain /\
    (useRange s = false -> ranged = []).
Proof.
  revert s w. induction script as [|x script IH]; intros s w; simpl.
  - exists [], []. rewrite app_nil_r. repeat split; constructor.
  - pose proof (iteration_requests hostname x s w) as Hreq.
    pose proof (frame_iteration hostname x s w) as (Hmono & _).
    unfold world_after, session_after in *.
    assert (Hone : exists ranged plain,
               requests w ++ [request_of (remeasure s w)]
               = requests w ++ ranged ++ plain /\
               Forall (fun r => is_Some (Range r)) ranged /\
               Forall (fun r => Range r = None) plain /\
               (useRange s = false -> ranged = [])).
    { unfold request_of. rewrite useRange_remeasure.
      destruct (useRange s).
      - exists [{| Range := Some (start (remeasure s w)) |}], [].
        repeat split; try (repeat constructor); [now eexists | discriminate].
      - exists [], [{| Range := None |}]. repeat split; repeat constructor. }
    destruct (iteration hostname x s w) as [[s' w'] n]. simpl in Hreq, Hmono.
    destruct n; simpl; try (rewrite Hreq; exact Hone).
    destruct (IH s' w') as (ranged & plain & Hr & Hfr & Hfp & Hoff).
    rewrite Hr, Hreq. unfold request_of. rewrite useRange_remeasure.
    destruct (useRange s) eqn:Hu.
    + exists ({| Range := Some (start (remeasure s w)) |} :: ranged), plain.
      repeat split; try assumption.
      * now rewrite <- !app_assoc.
      * constructor; [now eexists | assumption].
      * discriminate.
    + assert (Hu' : useRange s' = false).
      { destruct (useRange s') eqn:E; [|reflexivity].
        specialize (Hmono eq_refl). discriminate. }
      rewrite (Hoff Hu') in *. exists [], ({| Range := None |} :: plain).
      repeat split; try constructor; try assumption; try reflexivity.
      now rewrite <- !app_assoc.
Qed.

(** X9. The requests of a call are some requests with a Range header
    followed by some without: once a call has asked for the whole file it
    never asks for a range again. For a host that is in the set of hosts
    that refused ranges, no request of the call carries a Range header. *)
Theorem ranged_requests_come_first (hostname : string)
    (script : list Exchange) (finish : option string) (w : World) :
  exists ranged plain,
    requests (downloadFileInChunks hostname script finish w).1
    = requests w ++ ranged ++ plain /\
    Forall (fun r => is_Some (Range r)) ranged /\
    Forall (fun r => Range r = None) plain /\
    (hostname ∈ unsupportedRangeDomains w -> ranged = []).
Proof.
  unfold downloadFileInChunks.
  destruct (loop_requests_ranged_then_plain hostname script
              (initial hostname (createWriteStream w)) (createWriteStream w))
    as (ranged & plain & Hr & Hfr & Hfp & Hoff).
  exists ranged, plain.
  destruct (loop hostname script _ _) as [[s' w'] n]. simpl in Hr.
  split; [|split; [assumption|split; [assumption|]]].
  - destruct n as [[| |e]|]; simpl; try exact Hr;
      unfold finalize; destruct finish; exact Hr.
  - intros Hin. apply Hoff. unfold initial, has_domain. simpl.
    now rewrite bool_decide_eq_true_2.
Qed.

(** ** The errors of a call *)

(** A [try] block that throws leaves the retry budget as it was. *)
Lemma retries_on206_throw res s w e :
  (on206 res s w).2 = Throw e -> retries (on206 res s w).1.1 = retries s.
Proof.
  unfold on206, pipeline.
  destruct (truthy _) as [cr|]; [|reflexivity].
  destruct (ContentRange.parseContentRange cr) as [parsed|]; [|reflexivity].
  destruct (check_total _ s) as [e0|s0] eqn:E; [reflexivity|].
  assert (Hr : retries s0 = retries s).
  { unfold check_total in E. destruct (expectedTotal s).
    - destruct (negb _); [discriminate|]. now injection E as <-.
    - now injection E as <-. }
  repeat (break_match; simpl; try discriminate; try (intros _; exact Hr)).
Qed.

Lemma retries_tryBlock_throw x s w e :
  (tryBlock x s w).2 = Throw e -> retries (tryBlock x s w).1.1 = retries s.
Proof.
  unfold tryBlock.
  destruct x as [m|res]; [reflexivity|].
  destruct (statusCode res =? 416); [reflexivity|].
  destruct (negb (includes allowStatusCode (statusCode res))); [reflexivity|].
  destruct (negb _); [reflexivity|].
  destruct (statusCode res =? 206).
  - pose proof (retries_on206_throw res s w) as H.
    destruct (on206 res s w) as [[s1 w1] c]. simpl in H.
    destruct c as [| | |e0]; simpl; try discriminate.
    intros _. now apply (H e0).
  - destruct (statusCode res =? 200); [|reflexivity].
    unfold on200, pipeline.
    repeat (break_match; simpl; try discriminate; try reflexivity).
Qed.

(** A pass that fails: what its [try] block threw, and what the call
    throws for it. *)
Lemma iteration_fails_cause hostname x s w s' w' e :
  iteration hostname x s w = (s', w', Fails e) ->
  let attempt :=
    tryBlock x (remeasure s w) (send (request_of (remeasure s w)) w) in
  (exists cause,
     attempt.2 = Throw cause /\ is_fallback cause = false /\
     retries s <= 1 /\ e = ChunkFailed cause) \/
  (exists reason,
     attempt.2 = Throw (FallbackError reason) /\ useRange s = false /\
     e = NonChunkedFailed reason /\ hostname ∈ unsupportedRangeDomains w').
Proof.
  cbn zeta. unfold iteration.
  pose proof (frame_tryBlock x (remeasure s w)
                (send (request_of (remeasure s w)) w)) as (Hu & _ & _).
  pose proof (retries_tryBlock_throw x (remeasure s w)
                (send (request_of (remeasure s w)) w)) as Hr.
  rewrite useRange_remeasure in Hu.
  destruct (tryBlock x (remeasure s w) (send (request_of (remeasure s w)) w))
    as [[s2 w2] c]. simpl in Hu, Hr.
  destruct c as [| | |err]; simpl;
    try (destruct (whileCondition s2); discriminate); try discriminate.
  specialize (Hr err eq_refl). rewrite retries_remeasure in Hr.
  destruct (is_fallback err) eqn:Ef.
  - destruct err; try discriminate. cbn [catchBlock].
    destruct (useRange s2) eqn:Eu; cbn [negb].
    + destruct (whileCondition _); discriminate.
    + intros [= <- <- <-]. right. exists reason.
      repeat split; [congruence|]. simpl. set_solver.
  - rewrite catchBlock_ordinary by assumption.
    destruct (retries s2 - 1 <=? 0) eqn:E.
    + intros [= <- <- <-]. left. exists err.
      apply Z.leb_le in E. repeat split; [assumption | lia].
    + destruct (whileCondition _); discriminate.
Qed.

(** A loop that fails has gone round on some exchanges and failed on the
    next one. *)
Lemma loop_fails_last hostname script s w s' w' e :
  loop hostname script s w = (s', w', Some (Fails e)) ->
  exists before x after s1 w1,
    script = before ++ x :: after /\
    loop hostname before s w = (s1, w1, None) /\
    iteration hostname x s1 w1 = (s', w', Fails e).
Proof.
  revert s w. induction script as [|x script IH]; intros s w; simpl;
    [discriminate|].
  destruct (iteration hostname x s w) as [[sa wa] n] eqn:Eit.
  destruct n as [| |e'].
  - intros Hl. destruct (IH sa wa Hl) as (before & x' & after & s1 & w1 & -> & Hb & Hx).
    exists (x :: before), x', after, s1, w1.
    repeat split; [|exact Hx]. simpl. now rewrite Eit.
  - discriminate.
  - intros [= <- <- <-]. exists [], x, script, s, w. now repeat split.
Qed.

(** X10. A call throws only three kinds of error. Two come from the loop
    of requests, both after the scratch file has been removed, and both
    for what the [try] block of the last pass threw: with the retry
    budget at its last unit, an error that is no FallbackError is
    wrapped as the cause of 'Download file with chunk failed'; under the
    whole-file strategy a FallbackError gives 'Download failed even in
    non-chunked mode' with its reason, and the host is then in the set
    of hosts that refused ranges. The third is a write stream that fails
    to finish. *)
Theorem thrown_errors_and_cleanup (hostname : string)
    (script : list Exchange) (finish : option string) (w : World) (e : Error) :
  (downloadFileInChunks hostname script finish w).2 = Throws e ->
  let w0 := createWriteStream w in
  let w' := (downloadFileInChunks hostname script finish w).1 in
  (tmpFile w' = None /\
   exists (before : list Exchange) (x : Exchange) (after : list Exchange)
          (s1 : Session) (w1 : World),
     script = before ++ x :: after /\
     loop hostname before (initial hostname w0) w0 = (s1, w1, None) /\
     let attempt :=
       tryBlock x (remeasure s1 w1) (send (request_of (remeasure s1 w1)) w1) in
     ((exists cause,
         attempt.2 = Throw cause /\ is_fallback cause = false /\
         retries s1 <= 1 /\ e = ChunkFailed cause) \/
      (exists reason,
         attempt.2 = Throw (FallbackError reason) /\ useRange s1 = false /\
         e = NonChunkedFailed reason /\
         hostname ∈ unsupportedRangeDomains w')))
  \/ (exists m, finish = Some m /\ e = FinishAborted m).
Proof.
  cbn zeta. unfold downloadFileInChunks.
  pose proof (loop_fails_removes_tmpFile hostname script
                (initial hostname (createWriteStream w)) (createWriteStream w))
    as Hrm.
  pose proof (loop_fails_last hostname script
                (initial hostname (createWriteStream w)) (createWriteStream w))
    as Hlast.
  destruct (loop hostname script _ _) as [[s' w'] n]. simpl in Hrm.
  destruct n as [[| |e']|]; simpl.
  - unfold finalize. destruct finish as [m|]; simpl; [|discriminate].
    intros [= <-]. right. now exists m.
  - unfold finalize. destruct finish as [m|]; simpl; [|discriminate].
    intros [= <-]. right. now exists m.
  - intros [= <-]. left. split; [now apply (Hrm e')|].
    destruct (Hlast s' w' e' eq_refl)
      as (before & x & after & s1 & w1 & Hscript & Hbefore & Hx).
    exists before, x, after, s1, w1.
    split; [exact Hscript|]. split; [exact Hbefore|].
    exact (iteration_fails_cause _ _ _ _ _ _ _ Hx).
  - discriminate.
Qed.

Lemma thrown_errors_and_cleanup_witness :
  let script := [Responds (message 500 None None []);
                 Rejects "ETIMEDOUT";
                 Responds (message 503 None None [])] in
  let w0 := createWriteStream fresh_process in
  let r := downloadFileInChunks "files.example:80" script None fresh_process in
  let e := ChunkFailed (StatusAssertion 503) in
  r.2 = Throws e /\
  ((tmpFile r.1 = None /\
    exists (before : list Exchange) (x : Exchange) (after : list Exchange)
           (s1 : Session) (w1 : World),
      script = before ++ x :: after /\
      loop "files.example:80" before (initial "files.example:80" w0) w0
      = (s1, w1, None) /\
      let attempt :=
        tryBlock x (remeasure s1 w1) (send (request_of (remeasure s1 w1)) w1) in
      ((exists cause,
          attempt.2 = Throw cause /\ is_fallback cause = false /\
          retries s1 <= 1 /\ e = ChunkFailed cause) \/
       (exists reason,
          attempt.2 = Throw (FallbackError reason) /\ useRange s1 = false /\
          e = NonChunkedFailed reason /\
          "files.example:80" ∈ unsupportedRangeDomains r.1)))
   \/ (exists m, None = Some m /\ e = FinishAborted m)).
Proof.
  cbn zeta. split; [reflexivity|].
  apply (thrown_errors_and_cleanup "files.example:80"
           [Responds (message 500 None None []);
            Rejects "ETIMEDOUT";
            Responds (message 503 None None [])]
           None fresh_process).
  reflexivity.
Defined.

(** ** The retry budget *)

(** X11. Three transport errors in a row at the start of a call use the
    retry budget up: the call fails with the third error as cause, after
    three requests for the same offset, and the scratch file is removed;
    what the network would have answered afterwards is never asked for. *)
Theorem three_failures_exhaust_the_budget (hostname : string)
    (m1 m2 m3 : string) (later : list Exchange) (finish : option string)
    (w : World) :
  let r := downloadFileInChunks hostname
             (Rejects m1 :: Rejects m2 :: Rejects m3 :: later) finish w in
  let q := {| Range := if has_domain hostname w then None else Some 0 |} in
  r.2 = Throws (ChunkFailed (TransportError m3)) /\
  tmpFile r.1 = None /\
  requests r.1 = requests w ++ [q; q; q].
Proof.
  cbn zeta. unfold downloadFileInChunks, initial.
  change (has_domain hostname (createWriteStream w))
    with (has_domain hostname w).
  destruct (has_domain hostname w);
    (split; [reflexivity | split; [reflexivity|]]);
    destruct w as [config hosts file sent]; cbv -[app];
    now rewrite <- !app_assoc.
Qed.

(** ** The resume offset *)

Lemma remeasure_measured s w :
  start s = downSize s ->
  start (remeasure s w) = stat w /\ downSize (remeasure s w) = stat w.
Proof.
  intros H. unfold remeasure.
  destruct (stat w =? downSize s) eqn:E; simpl; [|now split].
  apply Z.eqb_eq in E. split; congruence.
Qed.

(** X12. Whenever the two counters of a session agree at the head of a
    pass, the Range header of the pass starts at the size the scratch
    file has on disk at that moment, and the counters agree again at the
    head of the next pass. They agree at the head of the first pass. *)
Theorem resume_offset_is_the_size_on_disk (hostname : string) (x : Exchange)
    (s : Session) (w : World) :
  start s = downSize s ->
  let r := iteration hostname x s w in
  requests (world_after r)
  = requests w ++ [{| Range := if useRange s then Some (stat w) else None |}] /\
  (next_after r = Again -> start (session_after r) = downSize (session_after r)) /\
  start (initial hostname w) = downSize (initial hostname w).
Proof.
  intros Hinv. cbn zeta. split; [|split; [|reflexivity]].
  - rewrite iteration_requests. unfold request_of.
    rewrite useRange_remeasure.
    now destruct (remeasure_measured s w Hinv) as [-> _].
  - now apply iteration_keeps_start_downSize.
Qed.

Lemma resume_offset_is_the_size_on_disk_witness :
  start five_of_ten = downSize five_of_ten /\
  let r := iteration "files.example:80" (Rejects "ECONNRESET")
             five_of_ten five_on_disk in
  requests (world_after r)
  = requests five_on_disk
    ++ [{| Range := if useRange five_of_ten then Some (stat five_on_disk)
                    else None |}] /\
  (next_after r = Again -> start (session_after r) = downSize (session_after r)) /\
  start (initial "files.example:80" five_on_disk)
  = downSize (initial "files.example:80" five_on_disk).
Proof.
  split; [reflexivity|].
  apply (resume_offset_is_the_size_on_disk "files.example:80"
           (Rejects "ECONNRESET") five_of_ten five_on_disk).
  reflexivity.
Defined.

(** ** The branch of status 200 *)

Lemma stat_nonneg w : 0 <= stat w.
Proof. unfold stat. destruct (tmpFile w); lia. Qed.

Lemma stat_zero w : stat w = 0 -> default [] (tmpFile w) = [].
Proof.
  unfold stat. destruct (tmpFile w) as [f|]; [|reflexivity].
  destruct f; simpl; [reflexivity | lia].
Qed.

(** The scratch file when the body of a 200 is piped into it. *)
Lemma on200_file res n s w :
  start s = stat w ->
  tmpFile (on200 res n s w).1.2 = Some (concat (body res)).
Proof.
  intros Hs. unfold on200, pipeline.
  destruct (useChunked s || (0 <? start s)) eqn:E.
  - now destruct (body_error res).
  - apply orb_false_iff in E as [_ E]. apply Z.ltb_ge in E.
    pose proof (stat_nonneg w).
    assert (H0 : default [] (tmpFile w) = []) by (apply stat_zero; lia).
    destruct (body_error res); simpl; now rewrite H0.
Qed.

Lemma iteration_complete_200 hostname res s w :
  start s = downSize s ->
  statusCode res = 200 ->
  body_error res = None ->
  next_after (iteration hostname (Responds res) s w) = Leaves /\
  tmpFile (world_after (iteration hostname (Responds res) s w))
  = Some (concat (body res)).
Proof.
  intros Hinv H200 Hbody.
  destruct (remeasure_measured s w Hinv) as [Hst _].
  unfold next_after, world_after, iteration.
  rewrite tryBlock_200 by assumption.
  pose proof (on200_file res
                (match content_length (headers res) with
                 | Some n => Z.of_N n
                 | None => 0
                 end)
                (remeasure s w) (send (request_of (remeasure s w)) w) Hst) as Hf.
  unfold on200, pipeline in *. rewrite Hbody in *.
  destruct (useChunked (remeasure s w) || (0 <? start (remeasure s w)));
    simpl in *; split; (reflexivity || exact Hf).
Qed.

(** X13. A 200 whose body ends normally ends the loop and leaves exactly
    that body in the scratch file, whatever had been downloaded before:
    bytes fetched earlier under the range strategy are discarded, none
    is kept in front of the body. *)
Theorem complete_200_leaves_exactly_its_body (hostname : string)
    (res : IncomingMessage) (s : Session) (w : World) :
  start s = downSize s ->
  statusCode res = 200 ->
  body_error res = None ->
  let r := iteration hostname (Responds res) s w in
  next_after r = Leaves /\
  tmpFile (world_after r) = Some (concat (body res)) /\
  snd (finalize None (world_after r)) = Returns (concat (body res)).
Proof.
  intros Hinv H200 Hbody. cbn zeta.
  destruct (iteration_complete_200 hostname res s w Hinv H200 Hbody) as [Hn Hf].
  repeat split; try assumption.
  unfold finalize. simpl. now rewrite Hf.
Qed.

Lemma complete_200_leaves_exactly_its_body_witness :
  (start five_of_ten = downSize five_of_ten /\
   statusCode (message 200 (Some 2%N) None [[x42; x43]]) = 200 /\
   body_error (message 200 (Some 2%N) None [[x42; x43]]) = None) /\
  let r := iteration "files.example:80"
             (Responds (message 200 (Some 2%N) None [[x42; x43]]))
             five_of_ten five_on_disk in
  next_after r = Leaves /\
  tmpFile (world_after r) = Some (concat [[x42; x43]]) /\
  snd (finalize None (world_after r)) = Returns (concat [[x42; x43]]).
Proof.
  split; [repeat split|].
  apply (complete_200_leaves_exactly_its_body "files.example:80"
           (message 200 (Some 2%N) None [[x42; x43]]) five_of_ten five_on_disk);
    reflexivity.
Defined.

(** X14. When the first response of a call is a 200 whose body ends
    normally, the call returns that body after this single request,
    whatever the host, the state of the process and the answers the
    network would have given next. *)
Theorem first_200_completes_in_one_pass (hostname : string)
    (res : IncomingMessage) (later : list Exchange) (w : World) :
  statusCode res = 200 ->
  body_error res = None ->
  let r := downloadFileInChunks hostname (Responds res :: later) None w in
  r.2 = Returns (concat (body res)) /\
  requests r.1
  = requests w ++ [{| Range := if has_domain hostname w then None else Some 0 |}].
Proof.
  intros H200 Hbody. cbn zeta. unfold downloadFileInChunks. cbn [loop].
  pose proof (iteration_complete_200 hostname res
                (initial hostname (createWriteStream w)) (createWriteStream w)
                eq_refl H200 Hbody) as [Hn Hf].
  pose proof (iteration_requests hostname (Responds res)
                (initial hostname (createWriteStream w)) (createWriteStream w))
    as Hreq.
  unfold next_after, world_after in *.
  destruct (iteration hostname (Responds res) _ _) as [[s' w'] n].
  simpl in Hn, Hf, Hreq. subst n. simpl. rewrite Hf. split; [reflexivity|].
  rewrite Hreq. unfold request_of, remeasure, initial, has_domain. simpl.
  now destruct (bool_decide _).
Qed.

Lemma first_200_completes_in_one_pass_witness :
  (statusCode (message 200 (Some 5%N) None [five_A]) = 200 /\
   body_error (message 200 (Some 5%N) None [five_A]) = None) /\
  let r := downloadFileInChunks "files.example:80"
             (Responds (message 200 (Some 5%N) None [five_A])
              :: [Rejects "ECONNRESET"]) None fresh_process in
  r.2 = Returns (concat [five_A]) /\
  requests r.1
  = requests fresh_process
    ++ [{| Range := if has_domain "files.example:80" fresh_process
                    then None else Some 0 |}].
Proof.
  split; [split; reflexivity|].
  apply (first_200_completes_in_one_pass "files.example:80"
           (message 200 (Some 5%N) None [five_A]) [Rejects "ECONNRESET"]
           fresh_process); reflexivity.
Defined.

(** X15. A 206 whose Content-Range starts exactly at the requested offset
    and whose body ends normally has its whole body appended to the
    scratch file; both counters move to the byte after the returned end,
    the expected total is the declared one and the retry budget is back
    at three. *)
Theorem exact_206_appends_and_advances (hostname : string)
    (res : IncomingMessage) (s : Session) (w : World)
    (contentRange : string) (parsed : ContentRange.parsed) :
  statusCode res = 206 ->
  truthy (content_range (headers res)) = Some contentRange ->
  ContentRange.parseContentRange contentRange = Some parsed ->
  expectedTotal s = None \/ expectedTotal s = Some (ContentRange.total parsed) ->
  start s = downSize s ->
  ContentRange.start parsed = start (remeasure s w) ->
  body_error res = None ->
  let r := iteration hostname (Responds res) s w in
  tmpFile (world_after r) = Some (default [] (tmpFile w) ++ concat (body res)) /\
  start (session_after r) = ContentRange.end_ parsed + 1 /\
  downSize (session_after r) = ContentRange.end_ parsed + 1 /\
  expectedTotal (session_after r) = Some (ContentRange.total parsed) /\
  retries (session_after r) = 3 /\
  next_after r = (if whileCondition (session_after r) then Again else Leaves).
Proof.
  intros H206 Ht Hp Hexp Hinv Hstart Hbody. cbn zeta.
  pose proof (remeasure_start_downSize s w Hinv) as Hinv'.
  assert (Htotal : expectedTotal (session_after (iteration hostname (Responds res) s w))
                   = Some (ContentRange.total parsed)).
  { rewrite (expectedTotal_after_parsed_206 hostname res s w _ _ H206 Ht Hp).
    now destruct Hexp as [->| ->]. }
  rewrite <- (expectedTotal_remeasure s w) in Hexp.
  destruct (check_total_consistent _ _ Hexp) as (s0 & Hck & Hs & Hd & Hr & Hu).
  split; [|split; [|split; [|split; [exact Htotal|]]]]; clear Htotal;
    unfold session_after, world_after, next_after, iteration;
    rewrite tryBlock_206 by assumption;
    rewrite (on206_parsed _ _ _ _ _ Ht Hp), Hck; cbn zeta;
    cbn [start downSize set_useChunked];
    rewrite Hs, Hd, Hstart, Z.eqb_refl; cbn [negb];
    unfold pipeline; rewrite Hbody; cbn; try reflexivity; try lia.
  split; reflexivity.
Qed.

Lemma exact_206_appends_and_advances_witness :
  (statusCode (message 206 None (Some "bytes 5-9/10") [[x42; x42]; [x43; x43; x43]]) = 206 /\
   ContentRange.parseContentRange "bytes 5-9/10"
   = Some {| ContentRange.start := 5; ContentRange.end_ := 9;
             ContentRange.total := 10 |} /\
   expectedTotal five_of_ten = Some 10 /\
   start five_of_ten = downSize five_of_ten /\
   5 = start (remeasure five_of_ten five_on_disk)) /\
  let r := iteration "files.example:80"
             (Responds (message 206 None (Some "bytes 5-9/10")
                          [[x42; x42]; [x43; x43; x43]]))
             five_of_ten five_on_disk in
  tmpFile (world_after r) = Some (five_A ++ [x42; x42; x43; x43; x43]) /\
  start (session_after r) = 9 + 1 /\
  downSize (session_after r) = 9 + 1 /\
  expectedTotal (session_after r) = Some 10 /\
  retries (session_after r) = 3 /\
  next_after r = (if whileCondition (session_after r) then Again else Leaves).
Proof.
  split; [repeat split|].
  apply (exact_206_appends_and_advances "files.example:80"
           (message 206 None (Some "bytes 5-9/10") [[x42; x42]; [x43; x43; x43]])
           five_of_ten five_on_disk "bytes 5-9/10"
           {| ContentRange.start := 5; ContentRange.end_ := 9;
              ContentRange.total := 10 |}
           eq_refl eq_refl eq_refl (or_intror eq_refl) eq_refl eq_refl eq_refl).
Defined.

(** X16. When the first response of a call is a 200 without a
    Content-Length (or with Content-Length 0) and its body breaks, the
    expected total is zero, so the loop ends instead of retrying: the
    call returns the bytes that arrived before the break and sends no
    further request. *)
Theorem broken_200_without_length_returns_what_arrived (hostname : string)
    (res : IncomingMessage) (m : string) (later : list Exchange) (w : World) :
  statusCode res = 200 ->
  content_length (headers res) = None \/ content_length (headers res) = Some 0%N ->
  body_error res = Some m ->
  let r := downloadFileInChunks hostname (Responds res :: later) None w in
  r.2 = Returns (concat (body res)) /\
  requests r.1
  = requests w ++ [{| Range := if has_domain hostname w then None else Some 0 |}].
Proof.
  intros H200 Hcl Hbody. cbn zeta. unfold downloadFileInChunks. cbn [loop].
  pose proof (iteration_requests hostname (Responds res)
                (initial hostname (createWriteStream w)) (createWriteStream w))
    as Hreq.
  assert (Hit :
    iteration hostname (Responds res)
      (initial hostname (createWriteStream w)) (createWriteStream w)
    = (set_retries 2
         (set_expectedTotal (Some 0) (initial hostname (createWriteStream w))),
       write (concat (body res))
         (send (request_of (initial hostname (createWriteStream w)))
            (createWriteStream w)),
       Leaves)).
  { rewrite (iteration_ordinary_error hostname (Responds res)
               (initial hostname (createWriteStream w)) (createWriteStream w)
               (set_expectedTotal (Some 0) (initial hostname (createWriteStream w)))
               (write (concat (body res))
                  (send (request_of (initial hostname (createWriteStream w)))
                     (createWriteStream w)))
               (TransportError m)).
    - reflexivity.
    - change (remeasure (initial hostname (createWriteStream w))
                (createWriteStream w))
        with (initial hostname (createWriteStream w)).
      rewrite tryBlock_200 by assumption.
      unfold on200, pipeline. rewrite Hbody.
      destruct Hcl as [->| ->]; reflexivity.
    - reflexivity. }
  rewrite Hit in *. unfold world_after in Hreq. simpl in Hreq. simpl.
  split; [reflexivity|].
  rewrite Hreq. unfold request_of, remeasure, initial, has_domain. simpl.
  now destruct (bool_decide _).
Qed.

Lemma broken_200_without_length_returns_what_arrived_witness :
  (statusCode {| statusCode := 200; headers := no_headers;
                 body := [[x41; x42]]; body_error := Some "ECONNRESET" |} = 200 /\
   content_length no_headers = None) /\
  let r := downloadFileInChunks "files.example:80"
             (Responds {| statusCode := 200; headers := no_headers;
                          body := [[x41; x42]];
                          body_error := Some "ECONNRESET" |}
              :: [Responds (message 200 (Some 5%N) None [five_A])])
             None fresh_process in
  r.2 = Returns (concat [[x41; x42]]) /\
  requests r.1
  = requests fresh_process
    ++ [{| Range := if has_domain "files.example:80" fresh_process
                    then None else Some 0 |}].
Proof.
  split; [split; reflexivity|].
  apply (broken_200_without_length_returns_what_arrived "files.example:80"
           {| statusCode := 200; headers := no_headers;
              body := [[x41; x42]]; body_error := Some "ECONNRESET" |}
           "ECONNRESET" [Responds (message 200 (Some 5%N) None [five_A])]
           fresh_process);
    [reflexivity | now left | reflexivity].
Defined.

(** ** An honest server *)

Lemma prefix_extend (c : list byte) (m a j : nat) :
  (a <= m)%nat ->
  take m c ++ drop (m - a) (take j (drop a c)) = take (m `max` (a + j)) c.
Proof.
  intros Ham.
  rewrite take_drop_commute, drop_drop.
  replace (a + (m - a))%nat with m by lia.
  destruct (Nat.le_gt_cases m (a + j)) as [Hle|Hgt].
  - rewrite Nat.max_r by lia.
    rewrite <- (take_drop m (take (a + j) c)) at 2.
    f_equal. rewrite take_take. f_equal. lia.
  - rewrite Nat.max_l by lia.
    rewrite drop_ge; [now rewrite app_nil_r|].
    rewrite length_take. lia.
Qed.

Lemma stat_take (c : list byte) (m : nat) w :
  (m <= length c)%nat -> tmpFile w = Some (take m c) -> stat w = Z.of_nat m.
Proof.
  intros Hm Hf. unfold stat. rewrite Hf, length_take. f_equal. lia.
Qed.

Lemma tmpFile_write b w :
  tmpFile (write b w) = Some (default [] (tmpFile w) ++ b).
Proof. reflexivity. Qed.

Lemma consistent_measured c s w :
  consistent c s w -> stat w = downSize s -> ready c s w.
Proof.
  intros Hc Hst. split; [exact Hc|].
  destruct Hc as (Hinv & Hexp & m & Hm & Hf).
  unfold whileCondition. intros Hw.
  destruct Hexp as [He|He]; rewrite He in Hw; [discriminate|].
  apply Z.ltb_ge in Hw.
  rewrite (stat_take c m w Hm Hf) in Hst.
  rewrite Hf. f_equal. apply take_ge. lia.
Qed.

Lemma check_total_honest total s :
  expectedTotal s = None \/ expectedTotal s = Some total ->
  exists s0, check_total total s = inr s0 /\
             start s0 = start s /\ downSize s0 = downSize s /\
             expectedTotal s0 = Some total.
Proof.
  unfold check_total. intros [H|H]; rewrite H.
  - eexists. split; [reflexivity|]. now simpl.
  - rewrite Z.eqb_refl. simpl. now exists s.
Qed.

Lemma ready_intro c s w (m' : nat) :
  start s = downSize s ->
  expectedTotal s = Some (Z.of_nat (length c)) ->
  (m' <= length c)%nat ->
  tmpFile w = Some (take m' c) ->
  (Z.of_nat (length c) <= downSize s -> (length c <= m')%nat) ->
  ready c s w.
Proof.
  intros Hinv He Hm Hf Hdone. split.
  - split; [exact Hinv|]. split; [now right|]. now exists m'.
  - unfold whileCondition. rewrite He. intros Hw. apply Z.ltb_ge in Hw.
    rewrite Hf. f_equal. apply take_ge. auto.
Qed.

(** A parsed 206 of an honest server. *)
Lemma on206_honest c res s w contentRange parsed :
  consistent c s w -> stat w = downSize s ->
  honest c (Responds res) -> statusCode res = 206 ->
  truthy (content_range (headers res)) = Some contentRange ->
  ContentRange.parseContentRange contentRange = Some parsed ->
  ready c (on206 res s w).1.1 (on206 res s w).1.2.
Proof.
  intros Hc Hst [H206 _] Hs Ht Hp.
  destruct Hc as (Hinv & Hexp & m & Hm & Hf).
  destruct (H206 Hs _ _ Ht Hp) as (Htot & Hrange & Hend & j & Hbody & Hj & Hall).
  rewrite <- Htot in Hexp.
  destruct (check_total_honest _ _ Hexp) as (s0 & Hck & Hs0 & Hd0 & He0).
  rewrite Htot in He0.
  rewrite (on206_parsed _ _ _ _ _ Ht Hp), Hck. cbn zeta.
  cbn [start downSize set_useChunked].
  rewrite (stat_take c m w Hm Hf) in Hst.
  (* what both pipelines write *)
  assert (Hwrite : forall k,
             k = Z.of_nat m - ContentRange.start parsed -> 0 <= k ->
             default [] (tmpFile w) ++ drop (Z.to_nat k) (concat (body res))
             = take (m `max` (Z.to_nat (ContentRange.start parsed) + j)) c).
  { intros k -> Hk. rewrite Hf, Hbody. simpl (default _ _).
    replace (Z.to_nat (Z.of_nat m - ContentRange.start parsed))
      with (m - Z.to_nat (ContentRange.start parsed))%nat by lia.
    apply prefix_extend. lia. }
  set (m' := (m `max` (Z.to_nat (ContentRange.start parsed) + j))%nat) in *.
  assert (Hm' : (m' <= length c)%nat) by (unfold m'; lia).
  destruct (ContentRange.start parsed =? start s0) eqn:Eeq; cbn [negb].
  - (* the range starts at the requested offset *)
    apply Z.eqb_eq in Eeq.
    unfold pipeline.
    assert (Hfile : default [] (tmpFile w) ++ concat (body res) = take m' c).
    { rewrite <- (Hwrite 0) by lia. reflexivity. }
    destruct (body_error res) as [msg|] eqn:Eb; cbn [fst snd];
      apply (ready_intro c _ _ m');
      cbn [start downSize expectedTotal set_start set_downSize set_useChunked];
      rewrite ?tmpFile_write, ?Hfile; try reflexivity; try congruence;
      try exact Hm'; unfold m'; try specialize (Hall eq_refl); lia.
  - apply Z.eqb_neq in Eeq.
    destruct (start s0 <? ContentRange.start parsed) eqn:Elt.
    + cbn [fst snd].
      apply (ready_intro c _ _ m);
        cbn [start downSize expectedTotal set_useChunked];
        try congruence; try exact Hm; lia.
    + apply Z.ltb_ge in Elt.
      unfold pipeline.
      assert (Hfile : default [] (tmpFile w)
                      ++ concat (Skip.createSkipTransform
                                   (start s0 - ContentRange.start parsed) (body res))
                      = take m' c).
      { rewrite createSkipTransform_concat by lia. apply Hwrite; lia. }
      destruct (body_error res) as [msg|] eqn:Eb; cbn [fst snd];
        apply (ready_intro c _ _ m');
        cbn [start downSize expectedTotal set_start set_downSize
             set_useChunked set_retries];
        rewrite ?tmpFile_write, ?Hfile; try reflexivity; try congruence;
        try exact Hm'; unfold m'; try specialize (Hall eq_refl); lia.
Qed.

Lemma on206_never_breaks res s w : (on206 res s w).2 <> Break.
Proof.
  unfold on206, pipeline.
  repeat (break_match; simpl; try discriminate).
Qed.

(** A 200 of an honest server. *)
Lemma on200_honest c res s w :
  consistent c s w -> stat w = downSize s ->
  honest c (Responds res) -> statusCode res = 200 ->
  match (on200 res (Z.of_nat (length c)) s w).2 with
  | Break => tmpFile (on200 res (Z.of_nat (length c)) s w).1.2 = Some c
  | _ => ready c (on200 res (Z.of_nat (length c)) s w).1.1
           (on200 res (Z.of_nat (length c)) s w).1.2
  end.
Proof.
  intros Hc Hst [_ H200] Hs.
  destruct Hc as (Hinv & Hexp & m & Hm & Hf).
  destruct (H200 Hs) as (_ & j & Hj & Hbody & Hall).
  assert (Hstart : start s = stat w) by congruence.
  pose proof (on200_file res (Z.of_nat (length c)) s w Hstart) as Hfile.
  pose proof (stat_nonneg w) as Hnn.
  unfold on200, pipeline in *.
  destruct (body_error res) as [msg|] eqn:Eb.
  - destruct (useChunked s || (0 <? start s)) eqn:Er; cbn [fst snd] in *;
      apply (ready_intro c _ _ j);
      cbn [start downSize expectedTotal set_start set_downSize set_expectedTotal];
      try reflexivity; try assumption; try congruence; try lia.
  - specialize (Hall eq_refl).
    destruct (useChunked s || (0 <? start s)); cbn [fst snd] in *; congruence.
Qed.

(** The [try] block against an honest server. *)
Lemma tryBlock_honest c x s w :
  consistent c s w -> stat w = downSize s -> honest c x ->
  match (tryBlock x s w).2 with
  | Break => tmpFile (tryBlock x s w).1.2 = Some c
  | Throw e => is_fallback e = true \/ ready c (tryBlock x s w).1.1 (tryBlock x s w).1.2
  | _ => ready c (tryBlock x s w).1.1 (tryBlock x s w).1.2
  end.
Proof.
  intros Hc Hst Hh.
  pose proof (consistent_measured c s w Hc Hst) as Hready.
  destruct x as [m|res]; [now right|].
  destruct (statusCode res =? 206) eqn:E206.
  - apply Z.eqb_eq in E206. rewrite tryBlock_206 by assumption.
    destruct (truthy (content_range (headers res))) as [cr|] eqn:Et.
    + destruct (ContentRange.parseContentRange cr) as [parsed|] eqn:Ep.
      * pose proof (on206_honest c res s w cr parsed Hc Hst Hh E206 Et Ep) as H.
        pose proof (on206_never_breaks res s w) as Hnb.
        destruct (on206 res s w) as [[s2 w2] comp]. simpl in *.
        destruct comp; simpl; try exact H; [contradiction | now right].
      * unfold on206. rewrite Et, Ep. now left.
    + unfold on206. rewrite Et. now left.
  - destruct (statusCode res =? 200) eqn:E200.
    + apply Z.eqb_eq in E200. rewrite tryBlock_200 by assumption.
      pose proof Hh as [_ H200]. destruct (H200 E200) as (Hcl & _).
      rewrite Hcl, nat_N_Z.
      pose proof (on200_honest c res s w Hc Hst Hh E200) as H.
      destruct (on200 res (Z.of_nat (length c)) s w) as [[s2 w2] comp].
      simpl in *. destruct comp; simpl; try exact H. now right.
    + unfold tryBlock. rewrite E206, E200.
      destruct (statusCode res =? 416); [now left|].
      destruct (negb (includes allowStatusCode (statusCode res))); [now right|].
      rewrite content_length_nonneg. now right.
Qed.

(** One pass against an honest server: the state stays consistent when
    the loop goes on, and the loop only ends with all of [c] on disk. *)
Lemma iteration_honest c hostname x s w :
  consistent c s w -> honest c x ->
  match next_after (iteration hostname x s w) with
  | Again => consistent c (session_after (iteration hostname x s w))
               (world_after (iteration hostname x s w))
  | Leaves => tmpFile (world_after (iteration hostname x s w)) = Some c
  | Fails _ => True
  end.
Proof.
  intros Hc Hh.
  assert (Hc1 : consistent c (remeasure s w) (send (request_of (remeasure s w)) w)).
  { destruct Hc as (Hinv & Hexp & Hfile).
    split; [now apply remeasure_start_downSize|].
    split; [now rewrite expectedTotal_remeasure | exact Hfile]. }
  assert (Hst1 : stat (send (request_of (remeasure s w)) w)
                 = downSize (remeasure s w)).
  { destruct Hc as (Hinv & _). now destruct (remeasure_measured s w Hinv) as [_ ->]. }
  pose proof (tryBlock_honest c x _ _ Hc1 Hst1 Hh) as Htry.
  unfold next_after, session_after, world_after, iteration.
  destruct (tryBlock x (remeasure s w) (send (request_of (remeasure s w)) w))
    as [[s2 w2] comp]. simpl in Htry.
  assert (Hgo : forall s3 w3, ready c s3 w3 ->
            match (if whileCondition s3 then Again else Leaves) with
            | Again => consistent c s3 w3
            | Leaves => tmpFile w3 = Some c
            | Fails _ => True
            end).
  { intros s3 w3 [Hcons Hdone]. destruct (whileCondition s3); auto. }
  destruct comp as [| | |e]; simpl.
  - now apply Hgo.
  - now apply Hgo.
  - exact Htry.
  - destruct (is_fallback e) eqn:Ef.
    + destruct e; try discriminate. simpl.
      destruct (useRange s2); simpl; [|exact I].
      split; [reflexivity|]. split; [now left|].
      exists 0%nat. split; [lia | reflexivity].
    + destruct Htry as [Htry|Htry]; [discriminate|].
      rewrite catchBlock_ordinary by assumption.
      destruct (retries s2 - 1 <=? 0); simpl; [exact I|].
      apply (Hgo (set_retries (retries s2 - 1) s2) w2). exact Htry.
Qed.

(** X17. One pass against a server that only delivers bytes of one
    resource in their place, started with a beginning of the resource in
    the scratch file, all of which the measurement at the head of the
    pass sees. The server may answer with a range that starts at, before
    or after the requested offset, with a body that breaks at any point,
    with a refusal, a rejected request or any other status; its 206
    responses declare the length of the resource as total and its 200
    responses declare it as Content-Length. When the loop goes round,
    the scratch file again holds a beginning of the resource and the
    counters agree; when the loop ends, the scratch file holds exactly
    the resource; when the pass fails, the scratch file is removed. The
    first pass of a call starts in such a state. *)
Theorem honest_pass_keeps_a_prefix (c : list byte) (hostname : string)
    (x : Exchange) (s : Session) (w : World) :
  consistent c s w -> honest c x ->
  let r := iteration hostname x s w in
  match next_after r with
  | Again => consistent c (session_after r) (world_after r)
  | Leaves => tmpFile (world_after r) = Some c
  | Fails _ => tmpFile (world_after r) = None
  end /\
  consistent c (initial hostname (createWriteStream w)) (createWriteStream w).
Proof.
  intros Hc Hh. cbn zeta. split.
  - pose proof (iteration_honest c hostname x s w Hc Hh) as Hit.
    pose proof (iteration_fails_removes_tmpFile hostname x s w) as Hrm.
    destruct (next_after (iteration hostname x s w)) as [| |e];
      [exact Hit | exact Hit | now apply (Hrm e)].
  - split; [reflexivity|]. split; [now left|].
    exists 0%nat. split; [lia | reflexivity].
Qed.

Lemma honest_pass_keeps_a_prefix_witness :
  consistent A_to_J three_of_ten three_on_disk /\
  honest A_to_J overlapping_range /\
  let r := iteration "files.example:80" overlapping_range
             three_of_ten three_on_disk in
  next_after r = Leaves /\
  match next_after r with
  | Again => consistent A_to_J (session_after r) (world_after r)
  | Leaves => tmpFile (world_after r) = Some A_to_J
  | Fails _ => tmpFile (world_after r) = None
  end /\
  consistent A_to_J
    (initial "files.example:80" (createWriteStream three_on_disk))
    (createWriteStream three_on_disk).
Proof.
  assert (Hc : consistent A_to_J three_of_ten three_on_disk).
  { split; [reflexivity|]. split; [now right|].
    exists 3%nat. split; [simpl; lia | reflexivity]. }
  assert (Hh : honest A_to_J overlapping_range).
  { split; [|discriminate].
    intros _ cr parsed [= <-] Hp. vm_compute in Hp. injection Hp as <-.
    cbn [ContentRange.total ContentRange.start ContentRange.end_].
    repeat split; try (simpl; lia).
    exists 8%nat. repeat split; simpl; lia. }
  split; [exact Hc|]. split; [exact Hh|].
  cbn zeta. split; [reflexivity|].
  exact (honest_pass_keeps_a_prefix A_to_J "files.example:80"
           overlapping_range three_of_ten three_on_disk Hc Hh).
Defined.

(** ** More on the header probe *)

(** X18. A chain of at most six redirects, each with a Location that
    resolves against the address it came from, is followed to the
    response that ends it; the headers returned are those of that
    response, with [location] set to the final address when it is not
    the address asked for. *)
Theorem probe_follows_up_to_six_hops
    (resolve : string -> string -> option string) (head : string -> Exchange)
    (u u' : string) (k : nat) (res : IncomingMessage) :
  follows resolve head u k u' ->
  (k <= 6)%nat ->
  head u' = Responds res ->
  starts_with_3 (statusCode res) = false ->
  httpHeadHeader resolve head u = inr (probe_result u u' res) /\
  (u <> u' -> location (probe_result u u' res) = Some u') /\
  (u = u' -> probe_result u u' res = headers res).
Proof.
  intros Hf Hk Hhead H3. split; [|split].
  - unfold httpHeadHeader, REDIRECT_TTL.
    replace 7%nat with (k + S (6 - k))%nat by lia.
    rewrite (head_loop_follows _ _ _ _ _ Hf). simpl.
    now rewrite Hhead, H3.
  - intros Hne. unfold probe_result.
    destruct (String.eqb_spec u u'); [contradiction | reflexivity].
  - intros ->. unfold probe_result. now rewrite String.eqb_refl.
Qed.

Lemma probe_follows_up_to_six_hops_witness :
  (exists res,
     follows absolute (redirect_chain hops_0_to_6 ten_bytes_with_ranges)
       "http://files.example/0" 6 "http://files.example/6" /\
     (6 <= 6)%nat /\
     redirect_chain hops_0_to_6 ten_bytes_with_ranges "http://files.example/6"
     = Responds res /\
     starts_with_3 (statusCode res) = false /\
     httpHeadHeader absolute (redirect_chain hops_0_to_6 ten_bytes_with_ranges)
       "http://files.example/0"
     = inr (probe_result "http://files.example/0" "http://files.example/6" res)).
Proof.
  assert (Hf : follows absolute (redirect_chain hops_0_to_6 ten_bytes_with_ranges)
                 "http://files.example/0" 6 "http://files.example/6").
  { repeat (eapply follows_hop;
            [reflexivity | reflexivity | reflexivity | reflexivity |]).
    apply follows_none. }
  eexists. split; [exact Hf|]. split; [lia|]. split; [reflexivity|].
  split; [reflexivity|].
  apply (probe_follows_up_to_six_hops absolute
           (redirect_chain hops_0_to_6 ten_bytes_with_ranges)
           "http://files.example/0" "http://files.example/6" 6 _ Hf);
    [lia | reflexivity | reflexivity].
Defined.

(** X19. The probe stops at the first hop it cannot take, within its
    first seven requests: a rejected request fails with that error, a
    redirect whose Location is absent or empty fails with 'no location',
    and a Location that does not resolve fails with the error of the URL
    constructor. *)
Theorem probe_stops_at_the_first_bad_hop
    (resolve : string -> string -> option string) (head : string -> Exchange)
    (u u' : string) (k : nat) :
  follows resolve head u k u' ->
  (k <= 6)%nat ->
  (forall m, head u' = Rejects m ->
     httpHeadHeader resolve head u = inl (TransportError m)) /\
  (forall res, head u' = Responds res ->
     starts_with_3 (statusCode res) = true ->
     truthy (location (headers res)) = None ->
     httpHeadHeader resolve head u = inl NoLocation) /\
  (forall res loc, head u' = Responds res ->
     starts_with_3 (statusCode res) = true ->
     truthy (location (headers res)) = Some loc ->
     resolve loc u' = None ->
     httpHeadHeader resolve head u = inl InvalidURL).
Proof.
  intros Hf Hk.
  assert (Hloop : httpHeadHeader resolve head u
                  = head_loop resolve head (S (6 - k)) u u').
  { unfold httpHeadHeader, REDIRECT_TTL.
    replace 7%nat with (k + S (6 - k))%nat by lia.
    apply (head_loop_follows _ _ _ _ _ Hf). }
  rewrite Hloop. cbn [head_loop]. repeat split.
  - intros m ->. reflexivity.
  - intros res -> H3 Hloc. now rewrite H3, Hloc.
  - intros res loc -> H3 Hloc Hres. now rewrite H3, Hloc, Hres.
Qed.

Lemma probe_stops_at_the_first_bad_hop_witness :
  follows absolute (fun _ => Responds (message 302 None None []))
    "http://files.example/0" 0 "http://files.example/0" /\
  (0 <= 6)%nat /\
  httpHeadHeader absolute (fun _ => Responds (message 302 None None []))
    "http://files.example/0" = inl NoLocation.
Proof.
  split; [apply follows_none|]. split; [lia|].
  apply (proj1 (proj2 (probe_stops_at_the_first_bad_hop absolute
           (fun _ => Responds (message 302 None None []))
           "http://files.example/0" "http://files.example/0" 0
           (follows_none _ _ _) ltac:(lia))) (message 302 None None []));
    reflexivity.
Defined.

Lemma starts_with_3_table :
  forallb (fun n => Bool.eqb (starts_with_3 (Z.of_nat n))
                      ((300 <=? Z.of_nat n) && (Z.of_nat n <=? 399)))
    (seq 100 900) = true.
Proof. vm_compute. reflexivity. Qed.

(** X20. Among the three-digit statuses, the probe treats exactly 300 to
    399 as redirects; 304 is one of them. *)
Theorem redirect_statuses_are_300_to_399 (status : Z) :
  100 <= status <= 999 ->
  starts_with_3 status = true <-> 300 <= status <= 399.
Proof.
  intros Hrange.
  pose proof (proj1 (forallb_forall _ _) starts_with_3_table (Z.to_nat status)) as H.
  cbv beta in H. rewrite Z2Nat.id in H by lia.
  assert (Hin : In (Z.to_nat status) (seq 100 900)) by (apply in_seq; lia).
  specialize (H Hin). apply Bool.eqb_prop in H. rewrite H.
  rewrite andb_true_iff, Z.leb_le, Z.leb_le. reflexivity.
Qed.

Lemma redirect_statuses_are_300_to_399_witness :
  100 <= 304 <= 999 /\ (starts_with_3 304 = true <-> 300 <= 304 <= 399).
Proof.
  split; [lia|]. apply (redirect_statuses_are_300_to_399 304). lia.
Defined.

(** ** A Content-Range without a total *)

Section UnknownTotalFacts.
Import ContentRange.

Lemma contains_append c s t :
  contains c (s +:+ t) = contains c s || contains c t.
Proof.
  induction s as [|x s IH]; [reflexivity|].
  rewrite append_cons. cbn [contains]. now rewrite IH, orb_assoc.
Qed.

Lemma contains_b_decimal n : contains "b" (decimal n) = false.
Proof.
  unfold decimal.
  induction (Nat.to_uint n) as [|d IH|d IH|d IH|d IH|d IH|d IH|d IH|d IH|d IH|d IH];
    cbn [uint_string contains]; try reflexivity; exact IH.
Qed.

Lemma search_without_b s : contains "b" s = false -> search s = None.
Proof.
  induction s as [|x s IH]; [reflexivity|].
  cbn [contains]. intros H. apply orb_false_iff in H as [Hx Hs].
  cbn [search]. unfold match_here. cbn [literal].
  rewrite Ascii.eqb_sym, Hx. now apply IH.
Qed.

End UnknownTotalFacts.

(** X21. A Content-Range that gives the range but a star for the total
    is not parsed, so a 206 that carries it is handled like a refusal of
    ranges: the engine falls back to the whole file. *)
Theorem unknown_total_is_a_refusal (first last : nat) (res : IncomingMessage) :
  statusCode res = 206 ->
  content_range (headers res) = Some (render_unknown_total first last) ->
  ContentRange.parseContentRange (render_unknown_total first last) = None /\
  range_refused res = true.
Proof.
  intros H206 Hcr.
  assert (Hparse : ContentRange.parseContentRange
                     (render_unknown_total first last) = None).
  { unfold ContentRange.parseContentRange, render_unknown_total.
    assert (Hm : ContentRange.match_here
                   ("bytes " +:+ decimal first +:+ "-" +:+ decimal last +:+ "/*")
                 = None).
    { unfold ContentRange.match_here. rewrite literal_prefix.
      rewrite (digits_decimal first ("-" +:+ decimal last +:+ "/*") eq_refl).
      destruct (String.list_ascii_of_string (decimal first)); [reflexivity|].
      change (ContentRange.literal "-" ("-" +:+ decimal last +:+ "/*"))
        with (Some (decimal last +:+ "/*")).
      cbv beta iota.
      rewrite (digits_decimal last "/*" eq_refl).
      now destruct (String.list_ascii_of_string (decimal last)). }
    change ("bytes " +:+ decimal first +:+ "-" +:+ decimal last +:+ "/*")
      with (String "b" ("ytes " +:+ decimal first +:+ "-" +:+ decimal last +:+ "/*"))
      in *.
    cbn [ContentRange.search]. rewrite Hm.
    apply search_without_b.
    rewrite !contains_append, !contains_b_decimal. reflexivity. }
  split; [exact Hparse|].
  unfold range_refused. rewrite H206, Hcr.
  change (truthy (Some (render_unknown_total first last)))
    with (Some (render_unknown_total first last)).
  cbv beta iota. now rewrite Hparse.
Qed.

Lemma unknown_total_is_a_refusal_witness :
  (statusCode (message 206 None (Some (render_unknown_total 0 4)) [five_A]) = 206 /\
   content_range (headers (message 206 None (Some (render_unknown_total 0 4)) [five_A]))
   = Some (render_unknown_total 0 4)) /\
  ContentRange.parseContentRange (render_unknown_total 0 4) = None /\
  range_refused (message 206 None (Some (render_unknown_total 0 4)) [five_A]) = true.
Proof.
  split; [split; reflexivity|].
  apply (unknown_total_is_a_refusal 0 4
           (message 206 None (Some (render_unknown_total 0 4)) [five_A]));
    reflexivity.
Defined.

(** ** The edges of the overlap filter *)

(** X22. With a skip count of zero or less the filter hands every chunk
    on as it came, and with a skip count of at least the length of the
    stream it emits no byte at all. *)
Theorem skip_transform_edges (s : Z) (cs : list chunk) :
  (s <= 0 -> Skip.createSkipTransform s cs = cs) /\
  (Z.of_nat (length (concat cs)) <= s ->
   concat (Skip.createSkipTransform s cs) = []).
Proof.
  split.
  - intros Hs. unfold Skip.createSkipTransform. now apply feed_passthrough.
  - intros Hs. unfold Skip.createSkipTransform.
    rewrite feed_concat by lia. apply drop_ge. lia.
Qed.
